(** * The frame pipeline of the RTSP / webcam face-inference tool

    A shallow embedding of [app.py]: the low-light preprocessing, the fusion
    of the frontal and the profile cascade, the annotation of the display
    frame, the health check and the capture loop with its save gate.

    Python floats are IEEE binary64 numbers; they are embedded as
    [spec_float] values with the operations of [SpecFloat] at precision 53,
    and the single-precision numbers OpenCV computes with as [spec_float]
    values at precision 24.  Python integers are [Z].  Calls into OpenCV, the logger, the clock and
    the file system are recorded in a trace of [Effect]s; what the
    environment answers (the outcome of a read, the readings of the clock)
    is an input of the model. *)

From Stdlib Require Import ZArith QArith Qabs Bool List Ascii String.
From Stdlib Require Import Lia Lqa.
From Stdlib Require Import Floats.SpecFloat.
From stdpp Require Import base option list gmap.
Import ListNotations.

Local Open Scope Z_scope.

(* ------------------------------------------------------------------ *)
(** ** Python floats *)

Module PyFloat.

Definition float : Type := spec_float.

Definition prec : Z := 53.
Definition emax : Z := 1024.

(** [float(n)] for an integer [n], rounded to nearest even. *)
Definition of_int (n : Z) : float := binary_normalize prec emax n 0 false.

Definition sub (a b : float) : float := SFsub prec emax a b.
Definition mul (a b : float) : float := SFmul prec emax a b.
Definition div (a b : float) : float := SFdiv prec emax a b.

(** [a >= b] and [a > b]; both are false as soon as one side is a NaN. *)
Definition ge (a b : float) : bool := SFleb b a.
Definition gt (a b : float) : bool := SFltb b a.

Definition is_nan (a : float) : bool :=
  match a with S754_nan => true | _ => false end.

(** The literals of the program. *)
Definition f0_0 : float := S754_zero false.
Definition f1_0 : float := Eval vm_compute in of_int 1.
Definition f1000_0 : float := Eval vm_compute in of_int 1000.
Definition f1_05 : float := Eval vm_compute in div (of_int 105) (of_int 100).
Definition f0_2 : float := Eval vm_compute in div (of_int 2) (of_int 10).
Definition f2_0 : float := Eval vm_compute in of_int 2.

End PyFloat.

Import PyFloat.

(* ------------------------------------------------------------------ *)
(** ** Single precision

    The C type [float]: IEEE binary32, rounding to nearest even. *)

Module F32.

Definition prec : Z := 24.
Definition emax : Z := 128.

(** An 8-bit value as a [float]; the conversion is exact. *)
Definition of_uchar (v : Z) : float := binary_normalize prec emax v 0 false.

(** The cast [(float)x] of a [double]. *)
Definition of_double (x : float) : float :=
  match x with
  | S754_finite s m e => binary_normalize prec emax (cond_Zopp s (Zpos m)) e s
  | _ => x
  end.

Definition mul (a b : float) : float := SFmul prec emax a b.
Definition add (a b : float) : float := SFadd prec emax a b.

(** The fused multiply-add [x * y + z]: the exact product and the addend
    are added exactly and the sum is rounded once. *)
Definition fma (x y z : float) : float :=
  match x, y, z with
  | S754_finite sx mx ex, S754_finite sy my ey, S754_finite sz mz ez =>
      let ep := ex + ey in
      let e := Z.min ep ez in
      binary_normalize prec emax
        (cond_Zopp (xorb sx sy) (Zpos (fst (shl_align (mx * my) ep e)))
         + cond_Zopp sz (Zpos (fst (shl_align mz ez e)))) e false
  | S754_finite _ _ _, S754_finite _ _ _, S754_zero _ => mul x y
  | S754_finite _ _ _, S754_finite _ _ _, S754_infinity _ => z
  | S754_finite _ _ _, S754_finite _ _ _, S754_nan => S754_nan
  | _, _, _ => add (mul x y) z
  end.

End F32.

(** The builtin [max(a, b)]: the second argument replaces the first one
    only when it compares strictly greater. *)
Definition py_max {A : Type} (gt : A -> A -> bool) (a b : A) : A :=
  if gt b a then b else a.

Definition max_float : float -> float -> float := py_max PyFloat.gt.
Definition max_int : Z -> Z -> Z := py_max Z.gtb.

(* ------------------------------------------------------------------ *)
(** ** Data *)

(** A colour pixel holds three 8-bit channels (B, G, R or Y, U, V). *)
Definition Pixel : Type := (Z * Z * Z)%type.

(** A colour frame is an array of rows of pixels; a grayscale image is an
    array of rows of 8-bit values. *)
Abbreviation Frame := (list (list Pixel)).
Abbreviation Gray := (list (list Z)).

(** A detection [(x, y, w, h)]. *)
Definition Box : Type := (Z * Z * Z * Z)%type.

Definition channels (p : Pixel) : list Z :=
  let '(c0, c1, c2) := p in [c0; c1; c2].

(** [frame[r][c]], when the indices are in range. *)
Definition pixel_at (frame : Frame) (r c : nat) : option Pixel :=
  match frame !! r with
  | Some row => row !! c
  | None => None
  end.

(** Every channel of every pixel of the frame is an 8-bit value. *)
Definition is_uint8 (v : Z) : Prop := 0 <= v <= 255.
Definition frame_uint8 (frame : Frame) : Prop :=
  Forall (Forall (fun p => Forall is_uint8 (channels p))) frame.

(** A cascade classifier, seen through [detectMultiScale(image,
    scaleFactor, minNeighbors, minSize)]. *)
Definition Detector : Type := Gray -> float -> Z -> Z * Z -> list Box.

Inductive Cascade : Type := Frontal | Profile.

(* ------------------------------------------------------------------ *)
(** ** Effects *)

Inductive LogMsg : Type :=
| MsgFrontalLoadFailed
| MsgProfileNotFound
| MsgHealthCannotOpen
| MsgHealthCannotRead
| MsgHealthOK
| MsgOpenFailed
| MsgConnected
| MsgDropped
| MsgFps (fps : float)
| MsgFrame (frame faces : Z) (infer_ms : float)
| MsgSaved (out_path : string) (saved : Z)
| MsgReachedMax (max_frames : Z)
| MsgInterrupted.

Inductive Level : Type := INFO | WARNING | ERROR.

Inductive CapProp : Type :=
  CAP_PROP_FRAME_WIDTH | CAP_PROP_FRAME_HEIGHT | CAP_PROP_FPS.

Inductive Effect : Type :=
| Log (lvl : Level) (msg : LogMsg)
| Sleep (seconds : float)
| CapOpen
| CapSet (prop : CapProp) (value : Z)
| CapRead
| CapRelease
| DetectMultiScale (which : Cascade) (scaleFactor : float)
                   (minNeighbors : Z) (minSize : Z * Z)
| Imwrite (path : string) (img : Frame).

(** A computation returns its value together with the effects it performed,
    oldest first. *)
Definition M (A : Type) : Type := (A * list Effect)%type.

Definition ret {A : Type} (a : A) : M A := (a, []).

Definition bind {A B : Type} (m : M A) (k : A -> M B) : M B :=
  let '(a, t1) := m in
  let '(b, t2) := k a in
  (b, t1 ++ t2).

Definition emit (e : Effect) : M unit := (tt, [e]).

Notation "'let!' x ':=' m 'in' k" := (bind m (fun x => k))
  (at level 10, x name, m at level 100, k at level 200).
Notation "'do!' m 'in' k" := (bind m (fun _ => k))
  (at level 10, m at level 100, k at level 200).

Definition value {A : Type} (m : M A) : A := fst m.
Definition trace {A : Type} (m : M A) : list Effect := snd m.

(* ------------------------------------------------------------------ *)
(** ** OpenCV

    The operations of the library the program calls.  [convertScaleAbs]
    computes, for every element of an 8-bit array,
    [saturate_cast<uchar>(|src * alpha + beta|)] in single precision:
    [alpha] and [beta] are cast from [double] to [float], the product and
    the sum are rounded one after the other or by one fused multiply-add,
    as the build and the width of the array have it, the absolute value is
    converted to a 32-bit integer, and that integer is saturated to 0..255.
    What the conversion yields for a NaN or for a value whose rounding
    does not fit 32 bits is left to the platform.  The colour conversions,
    the two equalisations and the rasteriser of [rectangle] are left
    abstract. *)

(** The nearest integer to [m / 2^k], ties to the even one. *)
Definition round_shift (m : Z) (k : positive) : Z :=
  let q := m / Zpos (2 ^ k) in
  let r := m mod Zpos (2 ^ k) in
  match 2 * r ?= Zpos (2 ^ k) with
  | Lt => q
  | Gt => q + 1
  | Eq => if Z.even q then q else q + 1
  end.

(** A finite [float] rounded to an integer, ties to even. *)
Definition round_int (x : float) : option Z :=
  match x with
  | S754_zero _ => Some 0
  | S754_finite s m e =>
      Some (cond_Zopp s
              match e with
              | Z0 => Zpos m
              | Zpos p => Zpos m * Zpos (2 ^ p)
              | Zneg p => round_shift (Zpos m) p
              end)
  | _ => None
  end.

(** [cvRound(float)]: the rounded value when it fits an [int], what the
    platform gives otherwise. *)
Definition cvRound (indefinite : float -> Z) (x : float) : Z :=
  match round_int x with
  | Some n => if (- 2 ^ 31 <=? n) && (n <? 2 ^ 31) then n else indefinite x
  | None => indefinite x
  end.

(** [saturate_cast<uchar>(int)] *)
Definition saturate_cast_uchar (v : Z) : Z :=
  if v <? 0 then 0 else if 255 <? v then 255 else v.

(** [src * a + b] on [float]s, fused or not. *)
Definition scale_shift (fused : bool) (a b : float) (v : Z) : float :=
  if fused then F32.fma (F32.of_uchar v) a b
  else F32.add (F32.mul (F32.of_uchar v) a) b.

Class OpenCV : Type := {
  cvtColor_BGR2YUV : Frame -> Frame;
  cvtColor_YUV2BGR : Frame -> Frame;
  cvtColor_BGR2GRAY : Frame -> Gray;
  equalizeHist : Gray -> Gray;
  (** [createCLAHE(clipLimit, tileGridSize).apply(img)] *)
  CLAHE_apply : float -> Z * Z -> Gray -> Gray;
  (** [rectangle_stroke pt1 pt2 thickness x y]: the pixel of column [x]
      and row [y] lies on the outline that [rectangle] rasterises between
      the corners [pt1] and [pt2] with the given stroke width. *)
  rectangle_stroke : Z * Z -> Z * Z -> Z -> Z -> Z -> bool;
  (** [fused_multiply_add r c ch]: [convertScaleAbs] evaluates the element
      of row [r], column [c] and channel [ch] with a fused multiply-add. *)
  fused_multiply_add : nat -> nat -> nat -> bool;
  (** What the conversion of a [float] to an [int] yields for a NaN and
      for a value whose rounding does not fit 32 bits. *)
  cvt_indefinite : float -> Z
}.

(** Frames are arrays on the heap: a variable holds a reference. *)
Abbreviation loc := positive.
Abbreviation Store := (gmap positive Frame).

Section Library.
Context {cv : OpenCV}.

(** One element of [convertScaleAbs(src, alpha=alpha, beta=beta)]: [alpha]
    is a Python float, [beta] a Python integer that the call converts to a
    [double]. *)
Definition convertScaleAbs_elem (fused : bool) (alpha : float) (beta : Z)
           (v : Z) : Z :=
  saturate_cast_uchar
    (cvRound cvt_indefinite
             (SFabs (scale_shift fused (F32.of_double alpha)
                                 (F32.of_double (of_int beta)) v))).

Definition convertScaleAbs_px (fused : nat -> bool) (alpha : float)
           (beta : Z) (p : Pixel) : Pixel :=
  let '(c0, c1, c2) := p in
  (convertScaleAbs_elem (fused 0%nat) alpha beta c0,
   convertScaleAbs_elem (fused 1%nat) alpha beta c1,
   convertScaleAbs_elem (fused 2%nat) alpha beta c2).

Definition convertScaleAbs (src : Frame) (alpha : float) (beta : Z) : Frame :=
  imap (fun r row =>
          imap (fun c px =>
                  convertScaleAbs_px (fused_multiply_add r c) alpha beta px)
               row) src.

(** The pixels [rectangle] writes take the colour; the others stay. *)
Definition draw_rectangle (img : Frame) (pt1 pt2 : Z * Z)
           (color : Pixel) (thickness : Z) : Frame :=
  imap (fun r row =>
          imap (fun c px =>
                  if rectangle_stroke pt1 pt2 thickness
                                      (Z.of_nat c) (Z.of_nat r)
                  then color else px) row) img.

(** [cv2.rectangle(img, pt1, pt2, color, thickness)] draws into the
    array [img] refers to. *)
Definition rectangle (img : loc) (pt1 pt2 : Z * Z) (color : Pixel)
           (thickness : Z) (heap : Store) : Store :=
  alter (fun f => draw_rectangle f pt1 pt2 color thickness) img heap.

End Library.

(* ------------------------------------------------------------------ *)
(** ** The program *)

(** What the environment hands to the program. *)

Inductive Source : Type := Device (index : Z) | Uri (url : string).

(** The pair [(ok, frame)] that [cap.read()] returns. *)
Record ReadResult : Type := { rd_ok : bool; rd_frame : option Frame }.

(** [x is None] *)
Definition is_none {A : Type} (x : option A) : bool :=
  match x with
  | None => true
  | Some _ => false
  end.

(** [not ok or frame is None] *)
Definition read_failed (r : ReadResult) : bool :=
  negb (rd_ok r) || is_none (rd_frame r).

(** The readings of [time.time()] during one iteration, in the order the
    program takes them, and the string [utcnow().strftime(...)] gives. *)
Record Clock : Type := {
  clk_t0 : float;
  clk_t1 : float;
  clk_now : float;
  clk_utc : string
}.

(** One turn of the loop sees either the answer of a read or the
    interrupt of the user.  The interrupt is taken between two turns; one
    that strikes in the middle of a turn is not modelled. *)
Inductive Event : Type :=
| Read (r : ReadResult) (clk : Clock)
| KeyboardInterrupt.

(** The parsed command line. *)
Record Args : Type := {
  save_interval : float;
  max_frames : Z;
  health_check_flag : bool;
  scale_factor : float;
  min_neighbors : Z;
  min_size : Z;
  brighten_alpha : float;
  brighten_beta : Z;
  clahe : bool;
  width : Z;
  height : Z;
  fps : Z;
  use_profile : bool
}.

(** The counters and timestamps [main] keeps across iterations. *)
Record Stats : Type := {
  last_save : float;
  saved : Z;
  frames : Z;
  t_fps : float;
  fps_counter : Z
}.

Inductive Capture : Type := VideoCapture (src : Source).

(** Truth value of an optional integer argument: [None] and [0] are false. *)
Definition truthy (o : option Z) : bool :=
  match o with
  | Some n => negb (n =? 0)
  | None => false
  end.

(** [n or None] *)
Definition or_None (n : Z) : option Z := if n =? 0 then None else Some n.

Definition when (b : bool) (m : M unit) : M unit := if b then m else ret tt.

(** *** Paths

    [str(Path(dir) / name)] on a POSIX system, for a name of one
    component: the directory is cut at its slashes, empty components and
    [.] are dropped, a leading slash is the root (two leading slashes,
    and two only, are kept as they are). *)

Definition slash : ascii := "/"%char.

Fixpoint split_slash (s : string) : list string :=
  match s with
  | EmptyString => [EmptyString]
  | String ch rest =>
      if Ascii.eqb ch slash then EmptyString :: split_slash rest
      else match split_slash rest with
           | part :: parts => String ch part :: parts
           | [] => [String ch EmptyString]
           end
  end.

Fixpoint leading_slashes (s : string) : nat :=
  match s with
  | String ch rest =>
      if Ascii.eqb ch slash then S (leading_slashes rest) else 0%nat
  | EmptyString => 0%nat
  end.

Definition posix_root (s : string) : string :=
  match leading_slashes s with
  | 0%nat => ""
  | 2%nat => "//"
  | _ => "/"
  end.

Definition posix_parts (s : string) : list string :=
  List.filter
    (fun part => negb (String.eqb part "") && negb (String.eqb part "."))
    (split_slash s).

(** [str(OUT_DIR / f"frame_{ts}.jpg")]; the timestamp holds digits and
    underscores, so the file name is one component. *)
Definition frame_path (OUT_DIR ts : string) : string :=
  (posix_root OUT_DIR
   ++ String.concat "/" (posix_parts OUT_DIR ++ ["frame_" ++ ts ++ ".jpg"]))
  %string.

(** *** Video *)

Definition open_capture (isOpened : bool) (src : Source)
           (width height fps : option Z) : M (option Capture) :=
  do! emit CapOpen in
  if negb isOpened then ret None
  else
    do! when (truthy width)
             (emit (CapSet CAP_PROP_FRAME_WIDTH (default 0 width))) in
    do! when (truthy height)
             (emit (CapSet CAP_PROP_FRAME_HEIGHT (default 0 height))) in
    do! when (truthy fps) (emit (CapSet CAP_PROP_FPS (default 0 fps))) in
    ret (Some (VideoCapture src)).

Definition cap_read (cap : Capture) (answer : ReadResult) : M ReadResult :=
  do! emit CapRead in ret answer.

Definition cap_release (cap : Capture) : M unit := emit CapRelease.

(** *** Detection *)

Definition detectMultiScale (which : Cascade) (d : Detector) (gray : Gray)
           (scaleFactor : float) (minNeighbors : Z) (minSize : Z * Z)
  : M (list Box) :=
  do! emit (DetectMultiScale which scaleFactor minNeighbors minSize) in
  ret (d gray scaleFactor minNeighbors minSize).

Definition load_detectors (frontal_xml profile_xml : option Detector)
           (use_profile : bool) : M (option Detector * option Detector) :=
  match frontal_xml with
  | None => do! emit (Log ERROR MsgFrontalLoadFailed) in ret (None, None)
  | Some frontal =>
      if use_profile then
        match profile_xml with
        | Some profile => ret (Some frontal, Some profile)
        | None =>
            do! emit (Log WARNING MsgProfileNotFound) in
            ret (Some frontal, None)
        end
      else ret (Some frontal, None)
  end.

Definition detect_faces (gray : Gray) (frontal : Detector)
           (profile : option Detector) (scale_factor : float)
           (min_neighbors min_size : Z) : M (list Box) :=
  let! faces :=
    detectMultiScale Frontal frontal gray scale_factor min_neighbors
                     (min_size, min_size) in
  match profile with
  | Some profile =>
      let! faces_prof :=
        detectMultiScale Profile profile gray
                         (max_float f1_05 scale_factor)
                         (max_int 3 (min_neighbors - 1))
                         (min_size, min_size) in
      if 0 <? Z.of_nat (length faces_prof)
      then ret (faces ++ faces_prof)
      else ret faces
  | None => ret faces
  end.

(** *** Health check *)

Definition health_check (isOpened : bool) (answer : ReadResult)
           (src : Source) : M Z :=
  let! cap := open_capture isOpened src None None None in
  match cap with
  | None => do! emit (Log ERROR MsgHealthCannotOpen) in ret 1
  | Some cap =>
      let! r := cap_read cap answer in
      do! cap_release cap in
      if negb (rd_ok r) || is_none (rd_frame r)
      then do! emit (Log ERROR MsgHealthCannotRead) in ret 2
      else do! emit (Log INFO MsgHealthOK) in ret 0
  end.

Section App.
Context {cv : OpenCV}.

(** *** Preprocessing *)

(** [img[..., 0]] and [img[..., 0] = y]; the equalisations keep the shape
    of the plane they are given. *)
Definition channel0 (img : Frame) : Gray :=
  fmap (M := list) (fmap (M := list) (fun p : Pixel => fst (fst p))) img.

Definition set_channel0 (img : Frame) (y : Gray) : Frame :=
  zip_with (zip_with (fun (p : Pixel) (v : Z) => (v, snd (fst p), snd p)))
           img y.

Definition preprocess_for_faces (frame : Frame) (alpha : float) (beta : Z)
           (use_clahe equalize : bool) : Gray * Frame :=
  let frame_b := convertScaleAbs frame alpha beta in
  let frame_b :=
    if equalize || use_clahe then
      let yuv := cvtColor_BGR2YUV frame_b in
      let y := channel0 yuv in
      let y :=
        if use_clahe then CLAHE_apply f2_0 (8, 8) y else equalizeHist y in
      let yuv := set_channel0 yuv y in
      cvtColor_YUV2BGR yuv
    else frame_b in
  let gray := cvtColor_BGR2GRAY frame_b in
  (gray, frame_b).

(** *** Annotation *)

Definition annotate (frame : loc) (faces : list Box) (color : Pixel)
           (thickness : Z) (heap : Store) : loc * Store :=
  (frame,
   fold_left
     (fun h (face : Box) =>
        let '(x, y, w, h') := face in
        rectangle frame (x, y) (x + w, y + h') color thickness h)
     faces heap).

(** The defaults of [annotate]. *)
Definition color_default : Pixel := (0, 255, 0).
Definition thickness_default : Z := 2.

(** *** Main loop *)

Inductive Flow : Type := Continue | Break.

(** The body of [while True], from [cap.read()] to the test of
    [max_frames].  The enhanced frame [disp] is a fresh array; it is
    placed at [disp_ref] in the heap the annotation works on. *)
Definition disp_ref : loc := 1%positive.

Definition iteration (OUT_DIR : string) (args : Args) (cap : Capture)
           (frontal : Detector) (profile : option Detector)
           (st : Stats) (answer : ReadResult) (clk : Clock)
  : M (Flow * Stats) :=
  let! r := cap_read cap answer in
  match rd_ok r, rd_frame r with
  | true, Some frame =>
      let t0 := clk_t0 clk in
      let '(gray, disp) :=
        preprocess_for_faces frame (brighten_alpha args)
                             (brighten_beta args) (clahe args) true in
      let! faces :=
        detect_faces gray frontal profile (scale_factor args)
                     (min_neighbors args) (min_size args) in
      let '(annotated, heap) :=
        annotate disp_ref faces color_default thickness_default
                 {[ disp_ref := disp ]} in
      let infer_ms := mul (sub (clk_t1 clk) t0) f1000_0 in
      let frames := frames st + 1 in
      let fps_counter := fps_counter st + 1 in
      let now := clk_now clk in
      let! fps_state :=
        if ge (sub now (t_fps st)) f1_0 then
          do! emit (Log INFO (MsgFps (div (of_int fps_counter)
                                          (sub now (t_fps st))))) in
          ret (now, 0)
        else ret (t_fps st, fps_counter) in
      do! emit (Log INFO (MsgFrame frames (Z.of_nat (length faces))
                                   infer_ms)) in
      let! save_state :=
        if ge (sub now (last_save st)) (save_interval args) then
          let ts := clk_utc clk in
          let out_path := frame_path OUT_DIR ts in
          do! emit (Imwrite out_path (default [] (heap !! annotated))) in
          let saved := saved st + 1 in
          do! emit (Log INFO (MsgSaved out_path saved)) in
          ret (saved, now)
        else ret (saved st, last_save st) in
      let st' := {| last_save := snd save_state;
                    saved := fst save_state;
                    frames := frames;
                    t_fps := fst fps_state;
                    fps_counter := snd fps_state |} in
      if (0 <? max_frames args) && (max_frames args <=? frames) then
        do! emit (Log INFO (MsgReachedMax (max_frames args))) in
        ret (Break, st')
      else ret (Continue, st')
  | _, _ =>
      do! emit (Log WARNING MsgDropped) in
      do! emit (Sleep f0_2) in
      ret (Continue, st)
  end.

(** How far the loop got on the events it was given: it is still
    [Running] when they are used up, or it left through [break] or
    through the interrupt. *)
Inductive Outcome : Type := Running | ReachedMax | Interrupted.

Fixpoint main_loop (OUT_DIR : string) (args : Args) (cap : Capture)
         (frontal : Detector) (profile : option Detector)
         (st : Stats) (events : list Event)
  : M (Outcome * Stats * list Event) :=
  match events with
  | [] => ret (Running, st, [])
  | KeyboardInterrupt :: rest =>
      do! emit (Log INFO MsgInterrupted) in
      ret (Interrupted, st, rest)
  | Read answer clk :: rest =>
      let! step := iteration OUT_DIR args cap frontal profile st answer clk in
      match fst step with
      | Break => ret (ReachedMax, snd step, rest)
      | Continue =>
          main_loop OUT_DIR args cap frontal profile (snd step) rest
      end
  end.

(** The state [main] enters the loop with. *)
Definition init_stats (t_start : float) : Stats :=
  {| last_save := f0_0;
     saved := 0;
     frames := 0;
     t_fps := t_start;
     fps_counter := 0 |}.

(** What [main] finds outside: the output directory, whether the source
    opens, the cascades that load, the first reading of the clock, the
    answer to the read of the health check and the events of the loop. *)
Record World : Type := {
  w_OUT_DIR : string;
  w_isOpened : bool;
  w_frontal_xml : option Detector;
  w_profile_xml : option Detector;
  w_t_start : float;
  w_health_read : ReadResult;
  w_events : list Event
}.

(** [main] after the arguments are parsed.  The exit code is [None] while
    the loop is still running on the events given. *)
Definition main (w : World) (args : Args) (src_cast : Source)
  : M (option Z) :=
  if health_check_flag args then
    let! code := health_check (w_isOpened w) (w_health_read w) src_cast in
    ret (Some code)
  else
    let! dets :=
      load_detectors (w_frontal_xml w) (w_profile_xml w)
                     (use_profile args) in
    match fst dets with
    | None => ret (Some 3)
    | Some frontal =>
        let! cap :=
          open_capture (w_isOpened w) src_cast (or_None (width args))
                       (or_None (height args)) (or_None (fps args)) in
        match cap with
        | None => do! emit (Log ERROR MsgOpenFailed) in ret (Some 4)
        | Some cap =>
            do! emit (Log INFO MsgConnected) in
            let! res :=
              main_loop (w_OUT_DIR w) args cap frontal (snd dets)
                        (init_stats (w_t_start w)) (w_events w) in
            match fst (fst res) with
            | Running => ret None
            | ReachedMax | Interrupted =>
                do! cap_release cap in ret (Some 0)
            end
        end
    end.

End App.

(* ------------------------------------------------------------------ *)
(** ** Vocabulary of the properties *)

(** What the profile pass adds: the boxes of the profile cascade, run with
    the relaxed parameters, or nothing when no profile cascade is
    configured. *)
Definition profile_boxes (gray : Gray) (profile : option Detector)
           (scale_factor : float) (min_neighbors min_size : Z) : list Box :=
  match profile with
  | Some p =>
      p gray (max_float f1_05 scale_factor) (max_int 3 (min_neighbors - 1))
        (min_size, min_size)
  | None => []
  end.

Section Strokes.
Context {cv : OpenCV}.

(** The pixel of row [r] and column [c] lies on the outline drawn for one
    of the boxes. *)
Definition box_stroke (thickness : Z) (face : Box) (x y : Z) : bool :=
  let '(bx, by', w, h) := face in
  rectangle_stroke (bx, by') (bx + w, by' + h) thickness x y.

Definition on_border (faces : list Box) (thickness : Z) (r c : nat) : bool :=
  existsb (fun face => box_stroke thickness face (Z.of_nat c) (Z.of_nat r))
          faces.

(** The array after the rectangles of all the boxes are drawn into it. *)
Definition draw_boxes (faces : list Box) (color : Pixel) (thickness : Z)
           (img : Frame) : Frame :=
  fold_left
    (fun f (face : Box) =>
       let '(x, y, w, h) := face in
       draw_rectangle f (x, y) (x + w, y + h) color thickness)
    faces img.

End Strokes.

(** The clamp of the specification, on integers and on rationals. *)
Definition clamp (x lo hi : Z) : Z := Z.max lo (Z.min x hi).

Definition clamp_Q (x : Q) : Q :=
  if Qle_bool x 0 then 0%Q else if Qle_bool 255 x then 255%Q else x.

(** The number a finite float stands for; infinities and NaN are given 0. *)
Definition F2Q (x : float) : Q :=
  match x with
  | S754_finite s m e =>
      let a := match e with
               | Z0 => inject_Z (Zpos m)
               | Zpos p => inject_Z (Zpos m * Zpos (2 ^ p))
               | Zneg p => Zpos m # 2 ^ p
               end in
      if s then Qopp a else a
  | _ => 0%Q
  end.

Definition is_finite (x : float) : bool :=
  match x with
  | S754_zero _ | S754_finite _ _ _ => true
  | _ => false
  end.

(** [n] is the integer nearest to [x], the even one of the two when [x]
    lies half way. *)
Definition nearest_even (x : Q) (n : Z) : Prop :=
  (Qabs (x - inject_Z n) <= 1 # 2)%Q
  /\ (Qabs (x - inject_Z n) == 1 # 2 -> Z.even n = true)%Q.

(** [alpha * input + beta] as [convertScaleAbs] evaluates it in single
    precision, with or without a fused multiply-add. *)
Definition single_precision (fused : bool) (alpha : float) (beta v : Z)
  : float :=
  scale_shift fused (F32.of_double alpha) (F32.of_double (of_int beta)) v.

(** The magnitude of a single-precision value is below [2^31]: its
    rounding fits a 32-bit integer. *)
Definition fits_int32 (t : float) : bool :=
  is_finite t && Qle_bool (Qabs (F2Q t)) (inject_Z (2 ^ 31 - 1)).

(** The number of frames written to disk in a trace. *)
Definition is_imwrite (e : Effect) : bool :=
  match e with
  | Imwrite _ _ => true
  | _ => false
  end.

Definition saves (t : list Effect) : nat :=
  length (List.filter is_imwrite t).

(** The test of the save gate and the test of the frame budget. *)
Definition save_due (args : Args) (st : Stats) (now : float) : bool :=
  ge (sub now (last_save st)) (save_interval args).

Definition budget_spent (args : Args) (frames : Z) : bool :=
  (0 <? max_frames args) && (max_frames args <=? frames).

(** What the loop gives back to the source after a failed read. *)
Definition backoff : list Effect :=
  [CapRead; Log WARNING MsgDropped; Sleep f0_2].

Definition outcome_of (res : Outcome * Stats * list Event) : Outcome :=
  fst (fst res).
Definition stats_of (res : Outcome * Stats * list Event) : Stats :=
  snd (fst res).
Definition rest_of (res : Outcome * Stats * list Event) : list Event :=
  snd res.

(** A turn of the loop on which the read fails. *)
Definition dropped (e : Event) : Prop :=
  match e with
  | Read r _ => read_failed r = true
  | KeyboardInterrupt => False
  end.

(** The successful reads among some events, and those that come before
    the first interrupt. *)
Definition is_good_read (e : Event) : bool :=
  match e with
  | Read r _ => negb (read_failed r)
  | KeyboardInterrupt => false
  end.

Definition reads_ok (events : list Event) : nat :=
  length (List.filter is_good_read events).

Fixpoint good_reads (events : list Event) : nat :=
  match events with
  | Read r _ :: rest =>
      ((if read_failed r then 0 else 1) + good_reads rest)%nat
  | _ => 0%nat
  end.

(** The enhanced frame and the fused detections of a raw frame, as the loop
    computes them. *)
Definition enhanced {cv : OpenCV} (args : Args) (frame : Frame)
  : Gray * Frame :=
  preprocess_for_faces frame (brighten_alpha args) (brighten_beta args)
                       (clahe args) true.

Definition detection {cv : OpenCV} (args : Args) (frontal : Detector)
           (profile : option Detector) (frame : Frame) : M (list Box) :=
  detect_faces (fst (enhanced args frame)) frontal profile
               (scale_factor args) (min_neighbors args) (min_size args).

(** How often a kind of effect occurs in a trace. *)
Definition count (kind : Effect -> bool) (t : list Effect) : nat :=
  length (List.filter kind t).

Definition is_open (e : Effect) : bool :=
  match e with CapOpen => true | _ => false end.

Definition is_read (e : Effect) : bool :=
  match e with CapRead => true | _ => false end.

Definition is_release (e : Effect) : bool :=
  match e with CapRelease => true | _ => false end.

Definition is_detect (e : Effect) : bool :=
  match e with DetectMultiScale _ _ _ _ => true | _ => false end.

(** The events hold an interrupt. *)
Definition is_interrupt (e : Event) : bool :=
  match e with
  | KeyboardInterrupt => true
  | Read _ _ => false
  end.

(** Two planes, or a frame and a plane, have the same shape. *)
Definition same_shape {A B : Type} (a : list (list A)) (b : list (list B))
  : Prop :=
  Forall2 (fun ra rb => length ra = length rb) a b.

(* ------------------------------------------------------------------ *)
(** ** An instance to run the program on

    Colour conversions that keep the first channel, equalisations that
    leave the plane alone, an outline made of the pixels of the closed
    rectangle between the corners that are less than [thickness] away from
    one of its sides, no fused multiply-add, and the smallest 32-bit
    integer for a conversion that does not fit. *)

Definition band_stroke (pt1 pt2 : Z * Z) (thickness x y : Z) : bool :=
  let '(x1, y1) := pt1 in
  let '(x2, y2) := pt2 in
  (x1 <=? x) && (x <=? x2) && (y1 <=? y) && (y <=? y2)
  && ((x <? x1 + thickness) || (x2 - thickness <? x)
      || (y <? y1 + thickness) || (y2 - thickness <? y)).

Definition sample_cv : OpenCV :=
  {| cvtColor_BGR2YUV := fun f => f;
     cvtColor_YUV2BGR := fun f => f;
     cvtColor_BGR2GRAY :=
       fmap (M := list) (fmap (M := list) (fun p : Pixel => fst (fst p)));
     equalizeHist := fun g => g;
     CLAHE_apply := fun _ _ g => g;
     rectangle_stroke := band_stroke;
     fused_multiply_add := fun _ _ _ => false;
     cvt_indefinite := fun _ => - 2 ^ 31 |}.

(** A cascade that reports the same boxes on every image. *)
Definition fixed_detector (boxes : list Box) : Detector :=
  fun _ _ _ _ => boxes.

Definition f5_0 : float := Eval vm_compute in of_int 5.
Definition f1_6 : float := Eval vm_compute in div (of_int 16) (of_int 10).

Definition sample_args : Args :=
  {| save_interval := f5_0;
     max_frames := 0;
     health_check_flag := false;
     scale_factor := f1_05;
     min_neighbors := 3;
     min_size := 20;
     brighten_alpha := f1_6;
     brighten_beta := 35;
     clahe := false;
     width := 0;
     height := 0;
     fps := 0;
     use_profile := false |}.

Definition black (rows cols : nat) : Frame :=
  repeat (repeat (0, 0, 0) cols) rows.

Definition with_max_frames (n : Z) (a : Args) : Args :=
  {| save_interval := save_interval a;
     max_frames := n;
     health_check_flag := health_check_flag a;
     scale_factor := scale_factor a;
     min_neighbors := min_neighbors a;
     min_size := min_size a;
     brighten_alpha := brighten_alpha a;
     brighten_beta := brighten_beta a;
     clahe := clahe a;
     width := width a;
     height := height a;
     fps := fps a;
     use_profile := use_profile a |}.

Definition with_save_interval (t : float) (a : Args) : Args :=
  {| save_interval := t;
     max_frames := max_frames a;
     health_check_flag := health_check_flag a;
     scale_factor := scale_factor a;
     min_neighbors := min_neighbors a;
     min_size := min_size a;
     brighten_alpha := brighten_alpha a;
     brighten_beta := brighten_beta a;
     clahe := clahe a;
     width := width a;
     height := height a;
     fps := fps a;
     use_profile := use_profile a |}.

(** The clock reads [seconds] since the epoch during the whole turn. *)
Definition clock_at (seconds : Z) : Clock :=
  {| clk_t0 := of_int seconds;
     clk_t1 := of_int seconds;
     clk_now := of_int seconds;
     clk_utc := "20231114_221320_000000" |}.

(** The same, five seconds later, with the stamp of that moment. *)
Definition clock_later : Clock :=
  {| clk_t0 := of_int 1700000005;
     clk_t1 := of_int 1700000005;
     clk_now := of_int 1700000005;
     clk_utc := "20231114_221325_000000" |}.

Definition good_read : ReadResult :=
  {| rd_ok := true; rd_frame := Some (black 4 4) |}.

Definition failed_read : ReadResult :=
  {| rd_ok := false; rd_frame := None |}.

Definition webcam : Capture := VideoCapture (Device 0).

(** A world in which the source opens or not, the frontal cascade loads or
    not, and the loop sees the given events. *)
Definition sample_world (opened : bool) (frontal_xml : option Detector)
           (events : list Event) : World :=
  {| w_OUT_DIR := "output";
     w_isOpened := opened;
     w_frontal_xml := frontal_xml;
     w_profile_xml := None;
     w_t_start := of_int 1700000000;
     w_health_read := good_read;
     w_events := events |}.

Definition with_health_check (a : Args) : Args :=
  {| save_interval := save_interval a;
     max_frames := max_frames a;
     health_check_flag := true;
     scale_factor := scale_factor a;
     min_neighbors := min_neighbors a;
     min_size := min_size a;
     brighten_alpha := brighten_alpha a;
     brighten_beta := brighten_beta a;
     clahe := clahe a;
     width := width a;
     height := height a;
     fps := fps a;
     use_profile := use_profile a |}.

(* ------------------------------------------------------------------ *)
(** ** Effects: value and trace of a sequence *)

Lemma value_bind {A B : Type} (m : M A) (k : A -> M B) :
  value (bind m k) = value (k (value m)).
Proof.
  destruct m as [a t]; unfold bind, value; cbn.
  destruct (k a); reflexivity.
Qed.

Lemma trace_bind {A B : Type} (m : M A) (k : A -> M B) :
  trace (bind m k) = trace m ++ trace (k (value m)).
Proof.
  destruct m as [a t]; unfold bind, value, trace; cbn.
  destruct (k a); reflexivity.
Qed.

Lemma M_eta {A : Type} (m : M A) : m = (value m, trace m).
Proof. destruct m; reflexivity. Qed.

(* ------------------------------------------------------------------ *)
(** ** The builtin [max] *)

Lemma max_int_Zmax (a b : Z) : max_int a b = Z.max a b.
Proof.
  unfold max_int, py_max. rewrite Z.gtb_ltb.
  destruct (Z.ltb_spec a b); lia.
Qed.

Lemma SFcompare_Lt_leb (a b : float) :
  SFltb a b = true -> SFleb a b = true.
Proof.
  unfold SFltb, SFleb. destruct (SFcompare a b) as [[ | | ]|]; congruence.
Qed.

Lemma SFcompare_antisym (a b : float) (c : comparison) :
  SFcompare a b = Some c -> SFcompare b a = Some (CompOpp c).
Proof.
  destruct a as [sa|sa| |sa ma ea], b as [sb|sb| |sb mb eb]; cbn;
    try discriminate;
    try (intros [= <-]; try destruct sa; try destruct sb; reflexivity).
  intros [= <-]. f_equal.
  destruct sa, sb; try reflexivity; rewrite (Z.compare_antisym ea eb);
    destruct (ea ?= eb)%Z; cbn; try reflexivity;
    rewrite (Pos.compare_cont_antisym _ _ Eq); cbn;
    destruct (Pos.compare_cont Eq ma mb); reflexivity.
Qed.

(** Unless the second argument is a NaN, [max] is an upper bound of both
    arguments; it is always one of them. *)
Lemma max_float_spec (a b : float) :
  is_nan a = false ->
  let m := max_float a b in
  (m = a \/ m = b) /\ ge m a = true /\ (is_nan b || ge m b) = true.
Proof.
  intros Ha m. subst m. unfold max_float, py_max, PyFloat.gt, PyFloat.ge.
  destruct (SFltb a b) eqn:Hlt.
  - split; [now right|]. split; [now apply SFcompare_Lt_leb|].
    apply orb_true_iff. right. unfold SFltb in Hlt. unfold SFleb.
    destruct (SFcompare a b) as [[ | | ]|] eqn:Hc; try discriminate.
    apply SFcompare_antisym in Hc.
    destruct b as [sb|sb| |sb mb eb]; cbn in *; try discriminate;
      try destruct sb; try reflexivity.
    all: rewrite Z.compare_refl; rewrite Pos.compare_cont_refl; reflexivity.
  - split; [now left|]. split.
    + unfold SFleb. destruct a as [sa|sa| |sa ma ea]; try discriminate;
        cbn; try destruct sa; try reflexivity.
      all: rewrite Z.compare_refl; rewrite Pos.compare_cont_refl; reflexivity.
    + destruct b as [sb|sb| |sb mb eb] eqn:Hb; try reflexivity; cbn [is_nan orb].
      all: unfold SFltb in Hlt; unfold SFleb; rewrite <- Hb in *.
      all: destruct (SFcompare a b) as [c|] eqn:Hc;
        [ apply SFcompare_antisym in Hc; rewrite Hc;
          destruct c; cbn; congruence
        | subst b; destruct a as [sa|sa| |sa ma ea]; cbn in *; congruence ].
Qed.

(* ------------------------------------------------------------------ *)
(** ** Detection fusion *)

Lemma detect_faces_value gray frontal profile sf mn ms :
  value (detect_faces gray frontal profile sf mn ms)
  = frontal gray sf mn (ms, ms) ++ profile_boxes gray profile sf mn ms.
Proof.
  unfold detect_faces, profile_boxes.
  destruct profile as [p|]; cbn.
  - set (fp := p _ _ _ _).
    destruct fp as [|b fp]; cbn.
    + now rewrite app_nil_r.
    + reflexivity.
  - now rewrite app_nil_r.
Qed.

(** C1. When the frontal cascade returns [m] boxes and the profile cascade,
    if one is configured, returns [n] boxes (none otherwise), the fusion
    returns [m + n] boxes: the frontal boxes in their order, then the
    profile boxes in theirs, with nothing merged or dropped. *)
Theorem detect_faces_concatenates
        (gray : Gray) (frontal : Detector) (profile : option Detector)
        (sf : float) (mn ms : Z) (m n : nat) :
  length (frontal gray sf mn (ms, ms)) = m ->
  length (profile_boxes gray profile sf mn ms) = n ->
  let faces := value (detect_faces gray frontal profile sf mn ms) in
  length faces = (m + n)%nat
  /\ take m faces = frontal gray sf mn (ms, ms)
  /\ drop m faces = profile_boxes gray profile sf mn ms.
Proof.
  intros Hm Hn faces. subst faces. rewrite detect_faces_value.
  rewrite length_app, Hm, Hn. split; [reflexivity|].
  subst m. split.
  - now rewrite take_app_length.
  - now rewrite drop_app_length.
Qed.

(** Both cascades report the same box: it is kept twice. *)
Lemma detect_faces_concatenates_witness :
  let both := fixed_detector [(10, 10, 40, 40); (80, 20, 30, 30)] in
  value (detect_faces [] both (Some (fixed_detector [(10, 10, 40, 40)]))
                      f1_05 3 20)
  = [(10, 10, 40, 40); (80, 20, 30, 30); (10, 10, 40, 40)].
Proof.
  cbv zeta.
  pose proof (detect_faces_concatenates
                [] (fixed_detector [(10, 10, 40, 40); (80, 20, 30, 30)])
                (Some (fixed_detector [(10, 10, 40, 40)]))
                f1_05 3 20 2 1 eq_refl eq_refl) as [_ [H1 H2]].
  etransitivity; [symmetry; apply (take_drop 2)|].
  rewrite H1, H2. reflexivity.
Defined.

(** C4. With a profile cascade configured, a fusion call runs the frontal
    pass with the configured parameters and then the profile pass, once,
    with scale factor [max(1.05, scale_factor)], with
    [max(3, min_neighbors - 1)] neighbours and with the minimum size of the
    frontal pass.  The scale factor of the profile pass is one of [1.05]
    and the configured one, is at least [1.05], and is at least the
    configured one unless that is a NaN. *)
Theorem profile_pass_parameters
        (gray : Gray) (frontal profile : Detector)
        (sf : float) (mn ms : Z) :
  let s := max_float f1_05 sf in
  trace (detect_faces gray frontal (Some profile) sf mn ms)
  = [ DetectMultiScale Frontal sf mn (ms, ms);
      DetectMultiScale Profile s (Z.max 3 (mn - 1)) (ms, ms) ]
  /\ (s = f1_05 \/ s = sf)
  /\ ge s f1_05 = true
  /\ (is_nan sf || ge s sf) = true.
Proof.
  intros s. split.
  - unfold detect_faces. rewrite <- max_int_Zmax. cbn.
    destruct (0 <? _); reflexivity.
  - apply (max_float_spec f1_05 sf). reflexivity.
Qed.

(* ------------------------------------------------------------------ *)
(** ** Health check *)

Lemma health_check_cases (isOpened : bool) (answer : ReadResult)
      (src : Source) :
  health_check isOpened answer src
  = if isOpened then
      if read_failed answer
      then (2, [CapOpen; CapRead; CapRelease; Log ERROR MsgHealthCannotRead])
      else (0, [CapOpen; CapRead; CapRelease; Log INFO MsgHealthOK])
    else (1, [CapOpen; Log ERROR MsgHealthCannotOpen]).
Proof.
  unfold health_check, read_failed.
  destruct isOpened; cbn; [|reflexivity].
  destruct (negb (rd_ok answer) || is_none (rd_frame answer)); reflexivity.
Qed.

(** In health-check mode [main] is the health check. *)
Lemma main_health_check {cv : OpenCV} (w : World) (args : Args)
      (src : Source) :
  health_check_flag args = true ->
  value (main w args src)
  = Some (value (health_check (w_isOpened w) (w_health_read w) src)).
Proof.
  intros H. unfold main. rewrite H, value_bind. reflexivity.
Qed.

(** C7. The health check returns 0 exactly when the source opens and the
    read succeeds; when the source does not open it returns 1 and no read
    is attempted; when the source opens and the read fails it returns 2. *)
Theorem health_check_status (isOpened : bool) (answer : ReadResult)
        (src : Source) :
  let run := health_check isOpened answer src in
  (value run = 0 <-> isOpened = true /\ read_failed answer = false)
  /\ (isOpened = false -> value run = 1 /\ ~ In CapRead (trace run))
  /\ (isOpened = true -> read_failed answer = true -> value run = 2).
Proof.
  cbv zeta. rewrite health_check_cases.
  destruct isOpened, (read_failed answer); cbn; repeat split;
    try discriminate; try tauto;
    try (intros [H1 H2]; discriminate);
    intros [E|[E|[]]]; discriminate E.
Qed.

(** A source that does not open, with a read that would have succeeded. *)
Lemma health_check_status_witness :
  let good := {| rd_ok := true; rd_frame := Some (black 2 2) |} in
  let bad := {| rd_ok := true; rd_frame := None |} in
  (value (health_check false good (Device 0)) = 1
   /\ ~ In CapRead (trace (health_check false good (Device 0))))
  /\ value (health_check true bad (Device 0)) = 2
  /\ value (health_check true good (Device 0)) = 0.
Proof.
  cbv zeta. split; [|split].
  - apply (health_check_status false); reflexivity.
  - apply (health_check_status true); reflexivity.
  - apply (health_check_status true). split; reflexivity.
Defined.

(* ------------------------------------------------------------------ *)
(** ** Annotation *)

Section Annotation.
Context {cv : OpenCV}.

Lemma pixel_at_draw_rectangle img pt1 pt2 color thickness r c :
  pixel_at (draw_rectangle img pt1 pt2 color thickness) r c
  = (fun px => if rectangle_stroke pt1 pt2 thickness (Z.of_nat c) (Z.of_nat r)
               then color else px) <$> pixel_at img r c.
Proof.
  unfold pixel_at, draw_rectangle.
  rewrite list_lookup_imap.
  destruct (img !! r) as [row|]; cbn; [|reflexivity].
  now rewrite list_lookup_imap.
Qed.

Lemma pixel_at_draw_boxes faces color thickness img r c :
  pixel_at (draw_boxes faces color thickness img) r c
  = (fun px => if on_border faces thickness r c then color else px)
      <$> pixel_at img r c.
Proof.
  revert img. induction faces as [|[[[x y] w] h] faces IH]; intros img.
  - cbn. now destruct (pixel_at img r c).
  - unfold draw_boxes in *. cbn [fold_left]. rewrite IH.
    rewrite pixel_at_draw_rectangle.
    destruct (pixel_at img r c) as [px|]; cbn [fmap option_fmap option_map];
      [|reflexivity].
    unfold on_border. cbn [existsb box_stroke].
    destruct (rectangle_stroke _ _ _ _ _); cbn [orb]; [|reflexivity].
    now destruct (existsb _ faces).
Qed.

Lemma annotate_heap (img : loc) faces color thickness (heap : Store) :
  snd (annotate img faces color thickness heap)
  = alter (draw_boxes faces color thickness) img heap.
Proof.
  unfold annotate, draw_boxes. cbn [snd].
  revert heap. induction faces as [|[[[x y] w] h] faces IH]; intros heap.
  - cbn. symmetry. now apply alter_id.
  - cbn [fold_left]. rewrite IH. unfold rectangle.
    rewrite alter_alter_eq. reflexivity.
Qed.

(** C5. With no detection, [annotate] draws nothing: it returns the frame
    it was given, and the heap, hence every pixel of that frame, is as it
    was. *)
Theorem annotate_no_detections (img : loc) (color : Pixel) (thickness : Z)
        (heap : Store) :
  let res := annotate img [] color thickness heap in
  fst res = img
  /\ snd res = heap
  /\ forall r c : nat,
      pixel_at (default [] (snd res !! fst res)) r c
      = pixel_at (default [] (heap !! img)) r c.
Proof. cbn. repeat split. Qed.

(** C10. [annotate] returns the reference it was given and draws into the
    array behind it: no other array of the heap changes, every pixel that
    lies on the outline of none of the boxes keeps its value, and every
    pixel on an outline takes the colour. *)
Theorem annotate_in_place (img : loc) (faces : list Box) (color : Pixel)
        (thickness : Z) (heap : Store) (before : Frame) :
  heap !! img = Some before ->
  let res := annotate img faces color thickness heap in
  fst res = img
  /\ (forall l : loc, l <> img -> snd res !! l = heap !! l)
  /\ exists after : Frame,
      snd res !! img = Some after
      /\ (forall r c : nat,
             on_border faces thickness r c = false ->
             pixel_at after r c = pixel_at before r c)
      /\ (forall r c : nat,
             on_border faces thickness r c = true ->
             pixel_at after r c = (fun _ => color) <$> pixel_at before r c).
Proof.
  intros Hbefore res. subst res. rewrite annotate_heap.
  split; [reflexivity|]. split.
  - intros l Hl. now rewrite lookup_alter_ne.
  - exists (draw_boxes faces color thickness before). split.
    + now rewrite lookup_alter_eq, Hbefore.
    + split; intros r c Hb; rewrite pixel_at_draw_boxes, Hb;
        now destruct (pixel_at before r c).
Qed.

End Annotation.

(** One box on a black 6 by 6 frame: the corner pixel is off the outline
    and stays black, the pixel of row 1 and column 1 is on it. *)
Lemma annotate_in_place_witness :
  let heap : Store := {[ 1%positive := black 6 6 ]} in
  let res := annotate (cv := sample_cv) 1%positive [(1, 1, 3, 3)]
                      color_default thickness_default heap in
  fst res = 1%positive
  /\ pixel_at (default [] (snd res !! 1%positive)) 0 0 = Some (0, 0, 0)
  /\ pixel_at (default [] (snd res !! 1%positive)) 1 1 = Some (0, 255, 0).
Proof.
  cbv zeta.
  assert (Hheap : ({[ 1%positive := black 6 6 ]} : Store) !! 1%positive
                  = Some (black 6 6)) by (vm_compute; reflexivity).
  destruct (annotate_in_place (cv := sample_cv) 1%positive [(1, 1, 3, 3)]
              color_default thickness_default
              {[ 1%positive := black 6 6 ]} (black 6 6) Hheap)
    as [Hret [_ [after [Hafter [Hout Hon]]]]].
  split; [exact Hret|]. rewrite Hafter. cbn [from_option id]. split.
  - rewrite (Hout 0%nat 0%nat); reflexivity.
  - rewrite (Hon 1%nat 1%nat); reflexivity.
Defined.

(* ------------------------------------------------------------------ *)
(** ** Brightening *)

Lemma saturate_cast_uchar_clamp (v : Z) :
  saturate_cast_uchar v = clamp v 0 255.
Proof.
  unfold saturate_cast_uchar, clamp.
  destruct (Z.ltb_spec v 0); [lia|].
  destruct (Z.ltb_spec 255 v); lia.
Qed.

Lemma F2Q_abs (t : float) : F2Q (SFabs t) = Qabs (F2Q t).
Proof. destruct t as [s|s| |s m [|p|p]]; try destruct s; reflexivity. Qed.

Lemma frac_minus (m n : Z) (p : positive) :
  ((m # p) - inject_Z n == (m - n * Zpos p) # p)%Q.
Proof.
  unfold Qeq, Qminus, Qplus, Qopp, inject_Z. cbn [Qnum Qden].
  rewrite Pos.mul_1_r. lia.
Qed.

Lemma Qabs_frac_le (a : Z) (p : positive) :
  (Qabs (a # p) <= 1 # 2)%Q <-> 2 * Z.abs a <= Zpos p.
Proof. unfold Qabs, Qle. cbn [Qnum Qden]. lia. Qed.

Lemma Qabs_frac_eq (a : Z) (p : positive) :
  (Qabs (a # p) == 1 # 2)%Q <-> 2 * Z.abs a = Zpos p.
Proof. unfold Qabs, Qeq. cbn [Qnum Qden]. lia. Qed.

Lemma nearest_even_frac (m n : Z) (p : positive) :
  2 * Z.abs (m - n * Zpos p) <= Zpos p ->
  (2 * Z.abs (m - n * Zpos p) = Zpos p -> Z.even n = true) ->
  nearest_even (m # p) n.
Proof.
  intros Hle Htie. unfold nearest_even.
  rewrite (Qabs_wd _ _ (frac_minus m n p)).
  split; [now apply Qabs_frac_le|].
  intros H. apply Htie. now apply Qabs_frac_eq.
Qed.

Lemma nearest_even_integer (z : Z) : nearest_even (inject_Z z) z.
Proof.
  change (inject_Z z) with (z # 1).
  apply nearest_even_frac; [lia|]. intros H. lia.
Qed.

Lemma round_shift_nearest (m : Z) (k : positive) :
  0 <= m ->
  nearest_even (m # 2 ^ k) (round_shift m k) /\ 0 <= round_shift m k.
Proof.
  intros Hm. unfold round_shift. cbv zeta.
  set (P := Zpos (2 ^ k)).
  pose proof (Z.div_mod m P ltac:(subst P; lia)) as Hdm.
  pose proof (Z.mod_pos_bound m P ltac:(subst P; lia)) as Hr.
  assert (Hq : 0 <= m / P) by (apply Z.div_pos; subst P; lia).
  destruct (Z.compare_spec (2 * (m mod P)) P) as [He|Hl|Hg].
  - destruct (Z.even (m / P)) eqn:Hev.
    + split; [|lia]. apply nearest_even_frac; fold P; [nia|]. intros _. exact Hev.
    + split; [|lia]. apply nearest_even_frac; fold P; [nia|]. intros _.
      rewrite Z.even_add, Hev. reflexivity.
  - split; [|lia]. apply nearest_even_frac; fold P; nia.
  - split; [|lia]. apply nearest_even_frac; fold P; nia.
Qed.

Lemma round_int_abs_nearest (t : float) :
  is_finite t = true ->
  exists n : Z,
    round_int (SFabs t) = Some n
    /\ nearest_even (Qabs (F2Q t)) n /\ 0 <= n.
Proof.
  intros Hfin. rewrite <- F2Q_abs.
  destruct t as [s|s| |s m e]; try discriminate Hfin.
  - exists 0. cbn. split; [reflexivity|]. split; [|lia].
    apply (nearest_even_integer 0).
  - cbn [SFabs round_int cond_Zopp F2Q].
    destruct e as [|p|p].
    + exists (Zpos m). split; [reflexivity|]. split; [|lia].
      apply nearest_even_integer.
    + exists (Zpos m * Zpos (2 ^ p)). split; [reflexivity|]. split; [|lia].
      apply nearest_even_integer.
    + exists (round_shift (Zpos m) p). split; [reflexivity|].
      apply round_shift_nearest. lia.
Qed.

Lemma nearest_even_le (x : Q) (n K : Z) :
  nearest_even x n -> (x <= inject_Z K)%Q -> n <= K.
Proof.
  intros [Hn _] Hx. apply Qabs_Qle_condition in Hn as [Hlo _].
  destruct (Z_le_gt_dec n K) as [|Hgt]; [assumption|exfalso].
  assert (H1 : (inject_Z (K + 1) <= inject_Z n)%Q)
    by (rewrite <- Zle_Qle; lia).
  rewrite inject_Z_plus in H1. change (inject_Z 1) with 1%Q in H1. lra.
Qed.

Section Brightening.
Context {cv : OpenCV}.

Lemma convertScaleAbs_elem_range (fused : bool) (alpha : float)
      (beta v : Z) :
  0 <= convertScaleAbs_elem fused alpha beta v <= 255.
Proof.
  unfold convertScaleAbs_elem. rewrite saturate_cast_uchar_clamp.
  unfold clamp. lia.
Qed.

Lemma convertScaleAbs_elem_nearest (fused : bool) (alpha : float)
      (beta v : Z) :
  fits_int32 (single_precision fused alpha beta v) = true ->
  exists n : Z,
    nearest_even (Qabs (F2Q (single_precision fused alpha beta v))) n
    /\ convertScaleAbs_elem fused alpha beta v = clamp n 0 255.
Proof.
  unfold fits_int32, convertScaleAbs_elem.
  fold (single_precision fused alpha beta v).
  set (t := single_precision fused alpha beta v).
  intros Hfit. apply andb_true_iff in Hfit as [Hfin Hle].
  apply Qle_bool_iff in Hle.
  destruct (round_int_abs_nearest t Hfin) as [n [Hr [Hn H0]]].
  exists n. split; [exact Hn|].
  pose proof (nearest_even_le _ _ _ Hn Hle) as Hmax.
  unfold cvRound. rewrite Hr.
  destruct (Z.leb_spec (- 2 ^ 31) n) as [_|]; [|lia].
  destruct (Z.ltb_spec n (2 ^ 31)) as [_|]; [|lia].
  cbn [andb]. apply saturate_cast_uchar_clamp.
Qed.

Lemma pixel_at_convertScaleAbs (frame : Frame) alpha beta r c :
  pixel_at (convertScaleAbs frame alpha beta) r c
  = convertScaleAbs_px (fused_multiply_add r c) alpha beta
      <$> pixel_at frame r c.
Proof.
  unfold pixel_at, convertScaleAbs. rewrite list_lookup_imap.
  destruct (frame !! r) as [row|]; cbn; [|reflexivity].
  now rewrite list_lookup_imap.
Qed.

(** C2, as amended.  On every channel of every pixel of an 8-bit frame the
    first step of the preprocessing yields a value between 0 and 255; and
    whenever [t], the value of [alpha * input + beta] in single precision,
    has a magnitude below [2^31], that value is [clamp(n, 0, 255)] for the
    integer [n] nearest to [|t|] (the even one on a tie): the absolute
    value is taken before the clamp, the sum is rounded to an integer, and
    the arithmetic is the single-precision one, with the product and the
    sum rounded one after the other or fused. *)
Theorem convertScaleAbs_pixels (frame : Frame) (alpha : float) (beta : Z)
        (r c : nat) (px : Pixel) :
  pixel_at frame r c = Some px ->
  Forall is_uint8 (channels px) ->
  - 2 ^ 63 <= beta < 2 ^ 63 ->
  exists px' : Pixel,
    pixel_at (convertScaleAbs frame alpha beta) r c = Some px'
    /\ Forall2
         (fun v v' =>
            0 <= v' <= 255
            /\ ((forall fused : bool,
                    fits_int32 (single_precision fused alpha beta v) = true)
                -> exists (fused : bool) (n : Z),
                    nearest_even
                      (Qabs (F2Q (single_precision fused alpha beta v))) n
                    /\ v' = clamp n 0 255))
         (channels px) (channels px').
Proof.
  intros Hpx _ _.
  exists (convertScaleAbs_px (fused_multiply_add r c) alpha beta px). split.
  - now rewrite pixel_at_convertScaleAbs, Hpx.
  - destruct px as [[c0 c1] c2]. cbn [convertScaleAbs_px channels].
    assert (Hone : forall fused v,
               0 <= convertScaleAbs_elem fused alpha beta v <= 255
               /\ ((forall fused' : bool,
                       fits_int32 (single_precision fused' alpha beta v)
                       = true)
                   -> exists (fused' : bool) (n : Z),
                       nearest_even
                         (Qabs (F2Q (single_precision fused' alpha beta v)))
                         n
                       /\ convertScaleAbs_elem fused alpha beta v
                          = clamp n 0 255)).
    { intros fused v. split; [apply convertScaleAbs_elem_range|].
      intros Hfit. exists fused.
      apply convertScaleAbs_elem_nearest, Hfit. }
    repeat (constructor; [apply Hone|]). constructor.
Qed.

End Brightening.

(** The rounding of a tie, a product beyond 32 bits, an offset of [2^31]
    and a negative offset, on a build without fused multiply-add whose
    conversion gives the smallest integer when the value does not fit. *)
Example convertScaleAbs_elem_runs :
  let elem := convertScaleAbs_elem (cv := sample_cv) in
  let f1_3 := div (of_int 13) (of_int 10) in
  elem false f1_6 35 1 = 37
  /\ elem false f1_6 35 255 = 255
  /\ elem false f1_3 35 165 = 249
  /\ elem true f1_3 35 165 = 249
  /\ elem false (of_int (10 ^ 10)) 0 1 = 0
  /\ elem false (of_int (10 ^ 7)) 0 1 = 255
  /\ elem false (of_int (10 ^ 7)) 0 255 = 0
  /\ elem false f1_0 (2 ^ 31) 1 = 0
  /\ elem false f1_0 (-100) 0 = 100
  /\ elem false f1_0 (-100) 130 = 30.
Proof. vm_compute. repeat split. Qed.

(** A pixel brightened with gain 1.6 and offset 35. *)
Lemma convertScaleAbs_pixels_witness :
  pixel_at (convertScaleAbs (cv := sample_cv) [[(10, 20, 200)]] f1_6 35) 0 0
  = Some (51, 67, 255)
  /\ exists px' : Pixel,
      pixel_at (convertScaleAbs (cv := sample_cv) [[(10, 20, 200)]] f1_6 35)
               0 0 = Some px'
      /\ Forall2
           (fun v v' =>
              0 <= v' <= 255
              /\ ((forall fused : bool,
                      fits_int32 (single_precision fused f1_6 35 v) = true)
                  -> exists (fused : bool) (n : Z),
                      nearest_even
                        (Qabs (F2Q (single_precision fused f1_6 35 v))) n
                      /\ v' = clamp n 0 255))
           (channels (10, 20, 200)) (channels px').
Proof.
  split; [vm_compute; reflexivity|].
  apply (convertScaleAbs_pixels (cv := sample_cv) [[(10, 20, 200)]] f1_6 35
           0 0 (10, 20, 200)).
  - reflexivity.
  - repeat constructor; unfold is_uint8; lia.
  - lia.
Defined.

Lemma convertScaleAbs_elem_black {cv : OpenCV} (fused : bool) :
  convertScaleAbs_elem fused f1_0 (-100) 0 = 100.
Proof. destruct fused; vm_compute; reflexivity. Qed.

(** Whatever the build and the platform, the clamp formula fails for a
    negative offset. *)
Lemma convertScaleAbs_not_clamp_anywhere :
  forall cv : OpenCV,
    ~ (forall (frame : Frame) (alpha : float) (beta : Z) (r c : nat)
              (px px' : Pixel),
          gt alpha f0_0 = true ->
          is_finite alpha = true ->
          frame_uint8 frame ->
          pixel_at frame r c = Some px ->
          pixel_at (convertScaleAbs frame alpha beta) r c = Some px' ->
          Forall2
            (fun v v' =>
               inject_Z v'
               == clamp_Q (F2Q alpha * inject_Z v + inject_Z beta))
            (channels px) (channels px')).
Proof.
  intros cv H.
  specialize (H [[(0, 0, 0)]] f1_0 (-100) 0%nat 0%nat
                (0, 0, 0) (100, 100, 100)).
  assert (Hu : frame_uint8 [[(0, 0, 0)]]).
  { repeat constructor; unfold is_uint8; lia. }
  assert (Hout : pixel_at (convertScaleAbs [[(0, 0, 0)]] f1_0 (-100)) 0 0
                 = Some (100, 100, 100)).
  { rewrite pixel_at_convertScaleAbs. cbn [pixel_at lookup list_lookup fmap
                                           option_fmap option_map
                                           convertScaleAbs_px].
    now rewrite !convertScaleAbs_elem_black. }
  specialize (H eq_refl eq_refl Hu eq_refl Hout).
  apply Forall2_cons_iff in H as [H _].
  vm_compute in H. discriminate H.
Qed.

(** C2 as it is written fails for a negative offset: with gain 1 and offset
    -100 a black pixel comes out at 100 on every channel, where the clamp
    of [1 * 0 - 100] is 0. *)
Lemma convertScaleAbs_not_clamp :
  ~ (forall (cv : OpenCV) (frame : Frame) (alpha : float) (beta : Z)
            (r c : nat) (px px' : Pixel),
        gt alpha f0_0 = true ->
        is_finite alpha = true ->
        frame_uint8 frame ->
        pixel_at frame r c = Some px ->
        pixel_at (convertScaleAbs frame alpha beta) r c = Some px' ->
        Forall2
          (fun v v' =>
             inject_Z v'
             == clamp_Q (F2Q alpha * inject_Z v + inject_Z beta))
          (channels px) (channels px')).
Proof.
  intros H. apply (convertScaleAbs_not_clamp_anywhere sample_cv).
  intros frame alpha beta r c px px'. apply H.
Qed.

(* ------------------------------------------------------------------ *)
(** ** One iteration of the loop *)

Section Iteration.
Context {cv : OpenCV}.
Variables (OUT_DIR : string) (args : Args) (cap : Capture).
Variables (frontal : Detector) (profile : option Detector).

Lemma iteration_dropped (st : Stats) (r : ReadResult) (clk : Clock) :
  read_failed r = true ->
  iteration OUT_DIR args cap frontal profile st r clk
  = ((Continue, st), backoff).
Proof.
  unfold read_failed, iteration. destruct r as [[|] [frame|]]; cbn;
    try discriminate; reflexivity.
Qed.

Lemma iteration_frame_value (st : Stats) (frame : Frame) (clk : Clock) :
  value (iteration OUT_DIR args cap frontal profile st
                   {| rd_ok := true; rd_frame := Some frame |} clk)
  = (if budget_spent args (frames st + 1) then Break else Continue,
     {| last_save :=
          if save_due args st (clk_now clk) then clk_now clk
          else last_save st;
        saved :=
          if save_due args st (clk_now clk) then saved st + 1 else saved st;
        frames := frames st + 1;
        t_fps :=
          if ge (sub (clk_now clk) (t_fps st)) f1_0 then clk_now clk
          else t_fps st;
        fps_counter :=
          if ge (sub (clk_now clk) (t_fps st)) f1_0 then 0
          else fps_counter st + 1 |}).
Proof.
  unfold iteration, save_due, budget_spent.
  rewrite value_bind. cbn [cap_read bind emit ret value fst rd_ok rd_frame].
  destruct (preprocess_for_faces _ _ _ _ _) as [gray disp].
  rewrite value_bind. unfold annotate. cbv beta iota zeta.
  destruct (PyFloat.ge (PyFloat.sub (clk_now clk) (t_fps st)) f1_0);
    destruct (PyFloat.ge (PyFloat.sub (clk_now clk) (last_save st))
                         (save_interval args));
    destruct ((0 <? max_frames args) && (max_frames args <=? frames st + 1));
    reflexivity.
Qed.
Lemma saves_app (t1 t2 : list Effect) :
  saves (t1 ++ t2) = (saves t1 + saves t2)%nat.
Proof. unfold saves. now rewrite List.filter_app, length_app. Qed.

Lemma detect_faces_no_saves gray sf mn ms :
  saves (trace (detect_faces gray frontal profile sf mn ms)) = 0%nat.
Proof.
  unfold detect_faces. destruct profile as [p|]; cbn; [|reflexivity].
  destruct (0 <? _); reflexivity.
Qed.

Lemma iteration_frame_saves (st : Stats) (frame : Frame) (clk : Clock) :
  saves (trace (iteration OUT_DIR args cap frontal profile st
                          {| rd_ok := true; rd_frame := Some frame |} clk))
  = if save_due args st (clk_now clk) then 1%nat else 0%nat.
Proof.
  unfold iteration, save_due.
  rewrite trace_bind. cbn [cap_read bind emit ret value trace fst snd
                           rd_ok rd_frame app].
  destruct (preprocess_for_faces _ _ _ _ _) as [gray disp].
  rewrite trace_bind. unfold annotate. cbv beta iota zeta.
  change (saves (CapRead :: ?t)) with (saves t).
  rewrite saves_app, detect_faces_no_saves.
  destruct (PyFloat.ge (PyFloat.sub (clk_now clk) (t_fps st)) f1_0);
    destruct (PyFloat.ge (PyFloat.sub (clk_now clk) (last_save st))
                         (save_interval args));
    destruct ((0 <? max_frames args) && (max_frames args <=? frames st + 1));
    reflexivity.
Qed.

(** A read that did not fail handed over a frame. *)
Lemma read_ok_frame (r : ReadResult) :
  read_failed r = false ->
  exists frame : Frame, r = {| rd_ok := true; rd_frame := Some frame |}.
Proof.
  destruct r as [[|] [frame|]]; cbn; try discriminate.
  intros _. now exists frame.
Qed.

(** C3. On a frame the loop processes, exactly one save decision is taken:
    the frame is written, once, if and only if
    [now - last_save >= save_interval] holds at that moment, and then
    [last_save] becomes [now] and [saved] grows by one; otherwise nothing
    is written and both are kept. *)
Theorem save_gate (st : Stats) (frame : Frame) (clk : Clock) :
  let run := iteration OUT_DIR args cap frontal profile st
                       {| rd_ok := true; rd_frame := Some frame |} clk in
  let now := clk_now clk in
  let due := ge (sub now (last_save st)) (save_interval args) in
  (saves (trace run) = 1%nat <-> due = true)
  /\ (saves (trace run) <= 1)%nat
  /\ last_save (snd (value run)) = (if due then now else last_save st)
  /\ saved (snd (value run)) = (if due then saved st + 1 else saved st).
Proof.
  cbv zeta. rewrite iteration_frame_saves, iteration_frame_value.
  unfold save_due. cbn [snd last_save saved].
  destruct (PyFloat.ge _ (save_interval args)); repeat split;
    try discriminate; lia.
Qed.

(** *** The loop *)

Lemma main_loop_cons_value (st : Stats) r clk (rest : list Event) :
  value (main_loop OUT_DIR args cap frontal profile st (Read r clk :: rest))
  = match fst (value (iteration OUT_DIR args cap frontal profile st r clk))
    with
    | Break =>
        (ReachedMax,
         snd (value (iteration OUT_DIR args cap frontal profile st r clk)),
         rest)
    | Continue =>
        value (main_loop OUT_DIR args cap frontal profile
                         (snd (value (iteration OUT_DIR args cap frontal
                                                profile st r clk)))
                         rest)
    end.
Proof.
  cbn [main_loop]. rewrite value_bind.
  destruct (fst (value _)); reflexivity.
Qed.

Lemma main_loop_dropped (st : Stats) (failures rest : list Event) :
  Forall dropped failures ->
  main_loop OUT_DIR args cap frontal profile st (failures ++ rest)
  = (value (main_loop OUT_DIR args cap frontal profile st rest),
     concat (map (fun _ => backoff) failures)
     ++ trace (main_loop OUT_DIR args cap frontal profile st rest)).
Proof.
  induction 1 as [|e failures He _ IH].
  - cbn. apply M_eta.
  - destruct e as [r clk|]; [|destruct He].
    cbn [app main_loop map concat]. rewrite (iteration_dropped _ _ _ He).
    cbn [bind fst snd]. rewrite IH. reflexivity.
Qed.

(** C8. Failed reads in a row, however many, are absorbed by the loop: each
    one costs a warning and a sleep of 0.2 s and then the loop reads again,
    in the state it had, so neither the frame counter nor anything else
    moves, and the loop is still running when the failures are over. *)
Theorem failed_reads_absorbed (st : Stats) (failures rest : list Event) :
  Forall dropped failures ->
  main_loop OUT_DIR args cap frontal profile st (failures ++ rest)
  = (value (main_loop OUT_DIR args cap frontal profile st rest),
     concat (map (fun _ => backoff) failures)
     ++ trace (main_loop OUT_DIR args cap frontal profile st rest))
  /\ main_loop OUT_DIR args cap frontal profile st failures
     = ((Running, st, []), concat (map (fun _ => backoff) failures)).
Proof.
  intros Hf. split.
  - now apply main_loop_dropped.
  - rewrite <- (app_nil_r failures) at 1.
    rewrite (main_loop_dropped _ _ _ Hf). cbn. now rewrite app_nil_r.
Qed.

Lemma sub_zero (x : float) : sub x f0_0 = x.
Proof. destruct x as [[|]|[|]| |[|] m e]; reflexivity. Qed.

(** C9, as amended.  After any number of failed reads, the first frame the
    loop processes is saved when, and only when, the save interval is at
    most the reading [now] of the clock on that frame: [last_save] starts
    at 0.0, so the gate compares [now] itself with the interval. *)
Theorem first_frame_saved (t_start : float) (failures : list Event)
        (frame : Frame) (clk : Clock) :
  Forall dropped failures ->
  let run :=
    main_loop OUT_DIR args cap frontal profile (init_stats t_start)
              (failures
               ++ [Read {| rd_ok := true; rd_frame := Some frame |} clk]) in
  frames (stats_of (value run)) = 1
  /\ saved (stats_of (value run))
     = (if ge (clk_now clk) (save_interval args) then 1 else 0).
Proof.
  intros Hf run. subst run. rewrite (main_loop_dropped _ _ _ Hf).
  unfold value at 1 3. cbn [fst].
  rewrite main_loop_cons_value, iteration_frame_value.
  unfold save_due. cbn [fst snd init_stats last_save]. rewrite sub_zero.
  destruct (budget_spent args _); cbn;
    destruct (PyFloat.ge (clk_now clk) (save_interval args)); split;
    reflexivity.
Qed.

(** With a budget of [N] frames, the counter never exceeds [N]; once it is
    below [N] and enough reads succeed before any interrupt, the loop
    leaves through [break] with the counter at [N]. *)
Lemma main_loop_budget (events : list Event) :
  forall st : Stats,
    0 < max_frames args ->
    frames st < max_frames args ->
    let res := value (main_loop OUT_DIR args cap frontal profile st events) in
    frames (stats_of res) <= max_frames args
    /\ ((Z.to_nat (max_frames args - frames st) <= good_reads events)%nat ->
        exists used : list Event,
          events = used ++ rest_of res
          /\ outcome_of res = ReachedMax
          /\ frames (stats_of res) = max_frames args
          /\ Z.of_nat (reads_ok used) = max_frames args - frames st).
Proof.
  induction events as [|e events IH]; intros st HN Hst.
  - cbn. split; [lia|]. intros H. lia.
  - destruct e as [r clk|].
    + cbv zeta. rewrite main_loop_cons_value.
      destruct (read_failed r) eqn:Hr.
      * rewrite (iteration_dropped _ _ _ Hr). cbn [value fst snd].
        destruct (IH st HN Hst) as [Hle Hex]. split; [exact Hle|].
        intros Hgood. cbn [good_reads] in Hgood. rewrite Hr in Hgood.
        destruct (Hex Hgood) as [used [Hu [Ho [Hfr Hcount]]]].
        exists (Read r clk :: used). repeat split; try assumption.
        -- cbn [app]. now rewrite <- Hu.
        -- unfold reads_ok in *. cbn [List.filter is_good_read].
           rewrite Hr. exact Hcount.
      * destruct (read_ok_frame _ Hr) as [frame ->].
        rewrite iteration_frame_value. cbn [fst snd].
        unfold budget_spent.
        destruct (Z.ltb_spec 0 (max_frames args)) as [_|]; [|lia].
        cbn [andb].
        destruct (Z.leb_spec (max_frames args) (frames st + 1)) as [Hb|Hb].
        -- cbn [stats_of rest_of outcome_of fst snd frames].
           split; [lia|]. intros _.
           exists [Read {| rd_ok := true; rd_frame := Some frame |} clk].
           repeat split; try lia.
           unfold reads_ok. cbn [List.filter is_good_read].
           rewrite Hr. cbn. lia.
        -- match goal with
           | |- context [main_loop _ _ _ _ _ ?s events] => set (st' := s)
           end.
           assert (Hst' : frames st' < max_frames args) by (cbn; lia).
           destruct (IH st' HN Hst') as [Hle Hex]. split; [exact Hle|].
           intros Hgood. cbn [good_reads] in Hgood. rewrite Hr in Hgood.
           assert (Hg' : (Z.to_nat (max_frames args - frames st')
                          <= good_reads events)%nat) by (cbn; lia).
           destruct (Hex Hg') as [used [Hu [Ho [Hfr Hcount]]]].
           exists (Read {| rd_ok := true; rd_frame := Some frame |} clk
                        :: used).
           repeat split; try assumption.
           ++ cbn [app]. now rewrite <- Hu.
           ++ unfold reads_ok in *. cbn [List.filter is_good_read].
              rewrite Hr. cbn [negb length]. cbn in Hcount. lia.
    + cbn. split; [lia|]. intros H. lia.
Qed.

(** C6. With [max_frames = N > 0] the loop never counts more than [N]
    processed frames; and when at least [N] reads succeed before any
    interrupt it leaves through [break] right after the [N]-th of them,
    having consumed exactly [N] successful reads and counted [N] frames,
    with the events that follow left unread. *)
Theorem max_frames_stops (t_start : float) :
  0 < max_frames args ->
  (forall events : list Event,
      frames (stats_of (value (main_loop OUT_DIR args cap frontal profile
                                         (init_stats t_start) events)))
      <= max_frames args)
  /\ (forall events : list Event,
         (Z.to_nat (max_frames args) <= good_reads events)%nat ->
         let res := value (main_loop OUT_DIR args cap frontal profile
                                     (init_stats t_start) events) in
         exists used : list Event,
           events = used ++ rest_of res
           /\ outcome_of res = ReachedMax
           /\ frames (stats_of res) = max_frames args
           /\ Z.of_nat (reads_ok used) = max_frames args).
Proof.
  intros HN. split; intros events.
  - apply (main_loop_budget events (init_stats t_start) HN). cbn. lia.
  - intros Hgood res. subst res.
    destruct (main_loop_budget events (init_stats t_start) HN) as [_ Hex];
      [cbn; lia|].
    cbn [init_stats frames] in Hex. rewrite Z.sub_0_r in Hex.
    exact (Hex Hgood).
Qed.

End Iteration.

(* ------------------------------------------------------------------ *)
(** ** Runs of the loop *)

(** Five failed reads in a row. *)
Lemma failed_reads_absorbed_witness :
  let five := repeat (Read failed_read (clock_at 1700000000)) 5 in
  main_loop (cv := sample_cv) "output" sample_args webcam
            (fixed_detector []) None (init_stats (of_int 1700000000)) five
  = ((Running, init_stats (of_int 1700000000), []),
     concat (map (fun _ => backoff) five)).
Proof.
  cbv zeta.
  apply (failed_reads_absorbed (cv := sample_cv) "output" sample_args webcam
           (fixed_detector []) None (init_stats (of_int 1700000000))
           (repeat (Read failed_read (clock_at 1700000000)) 5) []).
  repeat constructor.
Defined.

(** Two failed reads, then a frame at 1 700 000 000 s with the interval of
    5 s: the frame is saved. *)
Lemma first_frame_saved_witness :
  let run :=
    main_loop (cv := sample_cv) "output" sample_args webcam
              (fixed_detector [(1, 1, 2, 2)]) None
              (init_stats (of_int 1700000000))
              (repeat (Read failed_read (clock_at 1700000000)) 2
               ++ [Read good_read (clock_at 1700000000)]) in
  frames (stats_of (value run)) = 1 /\ saved (stats_of (value run)) = 1.
Proof.
  cbv zeta.
  apply (first_frame_saved (cv := sample_cv) "output" sample_args webcam
           (fixed_detector [(1, 1, 2, 2)]) None (of_int 1700000000)
           (repeat (Read failed_read (clock_at 1700000000)) 2)
           (black 4 4) (clock_at 1700000000)).
  repeat constructor.
Defined.

(** C9 as it is written fails: an interval of 1e10 s is not negative, and
    the first frame, read at 1 700 000 000 s, is not saved. *)
Lemma first_frame_not_saved :
  ~ (forall (cv : OpenCV) (OUT_DIR : string) (args : Args) (cap : Capture)
            (frontal : Detector) (profile : option Detector)
            (t_start : float) (frame : Frame) (clk : Clock),
        ge (save_interval args) f0_0 = true ->
        saved (stats_of (value
          (main_loop OUT_DIR args cap frontal profile (init_stats t_start)
                     [Read {| rd_ok := true; rd_frame := Some frame |} clk])))
        = 1).
Proof.
  intros H.
  specialize (H sample_cv "output"%string
                (with_save_interval (of_int (10 ^ 10)) sample_args) webcam
                (fixed_detector []) None (of_int 1700000000)
                (black 4 4) (clock_at 1700000000) eq_refl).
  vm_compute in H. discriminate H.
Qed.

(** A budget of two frames: the loop stops after the second good read and
    leaves the third one unread. *)
Lemma max_frames_stops_witness :
  let events :=
    [ Read good_read (clock_at 1700000000);
      Read failed_read (clock_at 1700000001);
      Read good_read (clock_at 1700000002);
      Read good_read (clock_at 1700000003) ] in
  let res :=
    value (main_loop (cv := sample_cv) "output"
                     (with_max_frames 2 sample_args) webcam
                     (fixed_detector []) None
                     (init_stats (of_int 1700000000)) events) in
  outcome_of res = ReachedMax
  /\ frames (stats_of res) = 2
  /\ rest_of res = [Read good_read (clock_at 1700000003)].
Proof.
  cbv zeta.
  assert (HN : 0 < max_frames (with_max_frames 2 sample_args))
    by (cbn; lia).
  destruct (max_frames_stops (cv := sample_cv) "output"
              (with_max_frames 2 sample_args) webcam (fixed_detector [])
              None (of_int 1700000000) HN) as [_ Hstop].
  destruct (Hstop [ Read good_read (clock_at 1700000000);
                    Read failed_read (clock_at 1700000001);
                    Read good_read (clock_at 1700000002);
                    Read good_read (clock_at 1700000003) ])
    as [used [_ [Ho [Hf _]]]].
  - cbn. lia.
  - split; [exact Ho|]. split; [exact Hf|]. vm_compute. reflexivity.
Defined.

(** The exits of [main]: a frontal cascade that does not load, a source
    that does not open, and a run of one frame. *)
Example main_exit_codes :
  let world (opened : bool) (xml : option Detector) : World :=
    {| w_OUT_DIR := "output";
       w_isOpened := opened;
       w_frontal_xml := xml;
       w_profile_xml := None;
       w_t_start := of_int 1700000000;
       w_health_read := good_read;
       w_events := [Read good_read (clock_at 1700000000)] |} in
  let args := with_max_frames 1 sample_args in
  value (main (cv := sample_cv) (world true None) args (Device 0)) = Some 3
  /\ value (main (cv := sample_cv) (world false (Some (fixed_detector [])))
                 args (Device 0)) = Some 4
  /\ value (main (cv := sample_cv) (world true (Some (fixed_detector [])))
                 args (Device 0)) = Some 0
  /\ saves (trace (main (cv := sample_cv)
                        (world true (Some (fixed_detector [])))
                        args (Device 0))) = 1%nat.
Proof. vm_compute. repeat split. Qed.

(* ------------------------------------------------------------------ *)
(** ** Further properties: opening, loading, health check *)

Lemma count_app (kind : Effect -> bool) (t1 t2 : list Effect) :
  count kind (t1 ++ t2) = (count kind t1 + count kind t2)%nat.
Proof. unfold count. now rewrite List.filter_app, length_app. Qed.

Lemma open_capture_opened_trace (src : Source) (w h f : Z) :
  trace (open_capture true src (or_None w) (or_None h) (or_None f))
  = CapOpen
      :: (if w =? 0 then [] else [CapSet CAP_PROP_FRAME_WIDTH w])
      ++ (if h =? 0 then [] else [CapSet CAP_PROP_FRAME_HEIGHT h])
      ++ (if f =? 0 then [] else [CapSet CAP_PROP_FPS f]).
Proof.
  unfold open_capture, or_None, when, truthy.
  destruct (Z.eqb_spec w 0) as [Hw|Hw], (Z.eqb_spec h 0) as [Hh|Hh],
    (Z.eqb_spec f 0) as [Hf|Hf]; cbn;
    repeat match goal with
           | |- context [?x =? 0] =>
               destruct (Z.eqb_spec x 0); [congruence|]; cbn
           end;
    reflexivity.
Qed.

Ltac break_capset :=
  repeat match goal with
         | H : _ \/ _ |- _ => destruct H
         | H : _ /\ _ |- _ => destruct H
         | H : False |- _ => destruct H
         | H : CapOpen = CapSet _ _ |- _ => discriminate H
         | H : CapSet _ _ = CapSet _ _ |- _ => injection H as ? ?
         end;
  subst.

(** As [main] calls it, [open_capture] configures the capture only after it
    opened, and only with the width, height and rate that are not 0. *)
Theorem open_capture_settings (isOpened : bool) (src : Source)
        (w h f : Z) (p : CapProp) (v : Z) :
  In (CapSet p v)
     (trace (open_capture isOpened src (or_None w) (or_None h) (or_None f)))
  <-> isOpened = true /\ v <> 0
      /\ ((p = CAP_PROP_FRAME_WIDTH /\ v = w)
          \/ (p = CAP_PROP_FRAME_HEIGHT /\ v = h)
          \/ (p = CAP_PROP_FPS /\ v = f)).
Proof.
  destruct isOpened.
  - rewrite open_capture_opened_trace. cbn [In]. rewrite !in_app_iff.
    destruct (Z.eqb_spec w 0), (Z.eqb_spec h 0), (Z.eqb_spec f 0);
      cbn [In]; (split; intros Hin; break_capset;
                 repeat split; solve [congruence | tauto]).
  - cbn. split; intros Hin; break_capset; congruence.
Qed.

(** When the profile cascade does not load, loading still yields the
    frontal detector, and fusion with what was loaded calls the frontal
    cascade once and returns its boxes alone. *)
Theorem profile_missing_frontal_only (use_profile : bool)
        (frontal : Detector) (gray : Gray) (sf : float) (mn ms : Z) :
  let dets := value (load_detectors (Some frontal) None use_profile) in
  fst dets = Some frontal
  /\ detect_faces gray frontal (snd dets) sf mn ms
     = (frontal gray sf mn (ms, ms),
        [DetectMultiScale Frontal sf mn (ms, ms)]).
Proof. destruct use_profile; split; reflexivity. Qed.

(** The health check opens the source once; when it opened, it reads once
    and releases the capture once, whether the read succeeds or not; its
    status is 0, 1 or 2. *)
Theorem health_check_releases (isOpened : bool) (answer : ReadResult)
        (src : Source) :
  let run := health_check isOpened answer src in
  count is_open (trace run) = 1%nat
  /\ count is_read (trace run) = (if isOpened then 1 else 0)%nat
  /\ count is_release (trace run) = (if isOpened then 1 else 0)%nat
  /\ 0 <= value run <= 2.
Proof.
  cbv zeta. rewrite health_check_cases.
  destruct isOpened, (read_failed answer); cbn; repeat split; lia.
Qed.

(* ------------------------------------------------------------------ *)
(** ** Further properties: one processed frame *)

Lemma detect_faces_trace_count (kind : Effect -> bool) gray frontal profile
      sf mn ms :
  (forall which s n sz, kind (DetectMultiScale which s n sz) = false) ->
  count kind (trace (detect_faces gray frontal profile sf mn ms)) = 0%nat.
Proof.
  intros Hk. unfold detect_faces. destruct profile as [p|]; cbn.
  - destruct (0 <? _); unfold count; cbn; now rewrite !Hk.
  - unfold count; cbn; now rewrite Hk.
Qed.

Section Frame_effects.
Context {cv : OpenCV}.
Variables (OUT_DIR : string) (args : Args) (cap : Capture).
Variables (frontal : Detector) (profile : option Detector).

Lemma annotate_fresh (disp : Frame) (faces : list Box) :
  default [] (snd (annotate disp_ref faces color_default thickness_default
                            {[ disp_ref := disp ]})
              !! fst (annotate disp_ref faces color_default thickness_default
                               {[ disp_ref := disp ]}))
  = draw_boxes faces color_default thickness_default disp.
Proof.
  rewrite annotate_heap. cbn [annotate fst].
  now rewrite lookup_alter_eq, lookup_singleton_eq.
Qed.

(** The effects of the loop on a frame it processes, in their order: the
    read, the detector calls, the rate once a second, the frame line, the
    save when it is due, the notice that the budget is spent. *)
Lemma iteration_frame_trace (st : Stats) (frame : Frame) (clk : Clock) :
  trace (iteration OUT_DIR args cap frontal profile st
                   {| rd_ok := true; rd_frame := Some frame |} clk)
  = CapRead
      :: trace (detection args frontal profile frame)
      ++ (if ge (sub (clk_now clk) (t_fps st)) f1_0
          then [Log INFO (MsgFps (div (of_int (fps_counter st + 1))
                                      (sub (clk_now clk) (t_fps st))))]
          else [])
      ++ [Log INFO (MsgFrame (frames st + 1)
                             (Z.of_nat (length (value (detection args frontal profile frame))))
                             (mul (sub (clk_t1 clk) (clk_t0 clk)) f1000_0))]
      ++ (if save_due args st (clk_now clk)
          then [Imwrite (frame_path OUT_DIR (clk_utc clk))
                        (draw_boxes (value (detection args frontal profile frame)) color_default
                                    thickness_default
                                    (snd (enhanced args frame)));
                Log INFO (MsgSaved (frame_path OUT_DIR (clk_utc clk))
                                   (saved st + 1))]
          else [])
      ++ (if budget_spent args (frames st + 1)
          then [Log INFO (MsgReachedMax (max_frames args))]
          else []).
Proof.
  unfold detection, enhanced, iteration, save_due, budget_spent.
  rewrite trace_bind.
  cbn [cap_read bind emit ret value trace fst snd rd_ok rd_frame app].
  destruct (preprocess_for_faces _ _ _ _ _) as [gray disp]. cbn [fst snd].
  rewrite trace_bind. f_equal. f_equal.
  pose proof (annotate_fresh disp
                (value (detect_faces gray frontal profile (scale_factor args)
                                     (min_neighbors args) (min_size args))))
    as Himg.
  destruct (annotate disp_ref _ color_default thickness_default _)
    as [annotated heap] eqn:Hann.
  cbn [fst snd] in Himg. rewrite <- Himg. unfold value.
  destruct (PyFloat.ge (PyFloat.sub (clk_now clk) (t_fps st)) f1_0);
    destruct (PyFloat.ge (PyFloat.sub (clk_now clk) (last_save st))
                         (save_interval args));
    destruct ((0 <? max_frames args) && (max_frames args <=? frames st + 1));
    reflexivity.
Qed.

Lemma imwrite_of_iteration (st : Stats) (frame : Frame) (clk : Clock)
        (path : string) (img : Frame) :
  In (Imwrite path img)
     (trace (iteration OUT_DIR args cap frontal profile st
                       {| rd_ok := true; rd_frame := Some frame |} clk)) ->
  path = frame_path OUT_DIR (clk_utc clk)
  /\ img = draw_boxes (value (detection args frontal profile frame)) color_default
                      thickness_default (snd (enhanced args frame))
  /\ save_due args st (clk_now clk) = true.
Proof.
  rewrite iteration_frame_trace. cbn [In]. rewrite !in_app_iff.
  intros [E|[Hd|[Hf|[Hm|[Hs|Hb]]]]]; try discriminate E.
  - exfalso. unfold detection, detect_faces in Hd.
    destruct profile as [p|]; cbn in Hd;
      [destruct (0 <? _); cbn in Hd|];
      repeat destruct Hd as [Hd|Hd]; try discriminate Hd; destruct Hd.
  - destruct (PyFloat.ge _ f1_0); cbn in Hf;
      repeat destruct Hf as [Hf|Hf]; try discriminate Hf; destruct Hf.
  - cbn in Hm. destruct Hm as [Hm|[]]. discriminate Hm.
  - destruct (save_due args st (clk_now clk)); cbn in Hs; [|destruct Hs].
    destruct Hs as [Hs|[Hs|[]]]; [|discriminate Hs].
    injection Hs as <- <-. repeat split.
  - destruct (budget_spent args _); cbn in Hb;
      repeat destruct Hb as [Hb|Hb]; try discriminate Hb; destruct Hb.
Qed.

(** What the loop writes for a processed frame is never the raw frame: it
    is the enhanced frame with the rectangles of the fused detections drawn
    into it, and it goes to [OUT_DIR/frame_<timestamp>.jpg]. *)
Theorem saved_image_is_annotated (st : Stats) (frame : Frame) (clk : Clock)
        (path : string) (img : Frame) :
  In (Imwrite path img)
     (trace (iteration OUT_DIR args cap frontal profile st
                       {| rd_ok := true; rd_frame := Some frame |} clk)) ->
  path = frame_path OUT_DIR (clk_utc clk)
  /\ img = draw_boxes (value (detection args frontal profile frame)) color_default
                      thickness_default (snd (enhanced args frame))
  /\ save_due args st (clk_now clk) = true.
Proof.
  rewrite iteration_frame_trace. cbn [In]. rewrite !in_app_iff.
  intros [E|[Hd|[Hf|[Hm|[Hs|Hb]]]]]; try discriminate E.
  - exfalso. unfold detection, detect_faces in Hd.
    destruct profile as [p|]; cbn in Hd;
      [destruct (0 <? _); cbn in Hd|];
      repeat destruct Hd as [Hd|Hd]; try discriminate Hd; destruct Hd.
  - destruct (PyFloat.ge _ f1_0); cbn in Hf;
      repeat destruct Hf as [Hf|Hf]; try discriminate Hf; destruct Hf.
  - cbn in Hm. destruct Hm as [Hm|[]]. discriminate Hm.
  - destruct (save_due args st (clk_now clk)); cbn in Hs; [|destruct Hs].
    destruct Hs as [Hs|[Hs|[]]]; [|discriminate Hs].
    injection Hs as <- <-. repeat split.
  - destruct (budget_spent args _); cbn in Hb;
      repeat destruct Hb as [Hb|Hb]; try discriminate Hb; destruct Hb.
Qed.

End Frame_effects.

(* ------------------------------------------------------------------ *)
(** ** Further properties: the loop and [main] *)

Section Loop_properties.
Context {cv : OpenCV}.
Variables (OUT_DIR : string) (args : Args) (cap : Capture).
Variables (frontal : Detector) (profile : option Detector).

Lemma main_loop_cons_trace (st : Stats) r clk (rest : list Event) :
  trace (main_loop OUT_DIR args cap frontal profile st (Read r clk :: rest))
  = trace (iteration OUT_DIR args cap frontal profile st r clk)
    ++ match fst (value (iteration OUT_DIR args cap frontal profile st r clk))
       with
       | Break => []
       | Continue =>
           trace (main_loop OUT_DIR args cap frontal profile
                            (snd (value (iteration OUT_DIR args cap frontal
                                                   profile st r clk)))
                            rest)
       end.
Proof.
  cbn [main_loop]. rewrite trace_bind.
  destruct (fst (value _)); reflexivity.
Qed.

(** Effects of a kind that neither a read, a log line, a sleep, a detector
    call nor a save belongs to do not occur in the loop. *)
Lemma iteration_count_zero (kind : Effect -> bool) (st : Stats)
      (r : ReadResult) (clk : Clock) :
  kind CapRead = false ->
  (forall l m, kind (Log l m) = false) ->
  (forall s, kind (Sleep s) = false) ->
  (forall which s n sz, kind (DetectMultiScale which s n sz) = false) ->
  (forall p img, kind (Imwrite p img) = false) ->
  count kind (trace (iteration OUT_DIR args cap frontal profile st r clk))
  = 0%nat.
Proof.
  intros Hr Hl Hs Hd Hi.
  destruct (read_failed r) eqn:Hfail.
  - rewrite (iteration_dropped _ _ _ _ _ _ _ _ Hfail).
    unfold count, backoff. cbn. now rewrite Hr, Hl, Hs.
  - destruct (read_ok_frame _ Hfail) as [frame ->].
    rewrite iteration_frame_trace. unfold detection.
    change (CapRead :: ?t) with ([CapRead] ++ t).
    rewrite !count_app, (detect_faces_trace_count kind _ _ _ _ _ _ Hd).
    unfold count.
    destruct (PyFloat.ge _ f1_0), (save_due args st (clk_now clk)),
      (budget_spent args (frames st + 1)); cbn;
      rewrite ?Hr, ?Hl, ?Hi; reflexivity.
Qed.

Lemma main_loop_count_zero (kind : Effect -> bool) (events : list Event) :
  kind CapRead = false ->
  (forall l m, kind (Log l m) = false) ->
  (forall s, kind (Sleep s) = false) ->
  (forall which s n sz, kind (DetectMultiScale which s n sz) = false) ->
  (forall p img, kind (Imwrite p img) = false) ->
  forall st : Stats,
    count kind (trace (main_loop OUT_DIR args cap frontal profile st events))
    = 0%nat.
Proof.
  intros Hr Hl Hs Hd Hi.
  induction events as [|[r clk|] events IH]; intros st.
  - reflexivity.
  - rewrite main_loop_cons_trace, count_app.
    rewrite (iteration_count_zero kind st r clk Hr Hl Hs Hd Hi).
    destruct (fst (value _)); [apply IH | reflexivity].
  - unfold count. cbn. now rewrite Hl.
Qed.

Lemma main_loop_counts (events : list Event) :
  forall st : Stats,
    let run := main_loop OUT_DIR args cap frontal profile st events in
    exists used : list Event,
      events = used ++ rest_of (value run)
      /\ frames (stats_of (value run))
         = frames st + Z.of_nat (reads_ok used)
      /\ saved (stats_of (value run))
         = saved st + Z.of_nat (saves (trace run))
      /\ (saves (trace run) <= reads_ok used)%nat.
Proof.
  induction events as [|[r clk|] events IH]; intros st; cbv zeta.
  - exists []. cbn. repeat split; lia.
  - rewrite main_loop_cons_value, main_loop_cons_trace, saves_app.
    destruct (read_failed r) eqn:Hfail.
    + rewrite (iteration_dropped _ _ _ _ _ _ _ _ Hfail).
      cbn [value trace fst snd].
      destruct (IH st) as [used [Hu [Hf [Hs Hle]]]].
      exists (Read r clk :: used). unfold reads_ok in *.
      cbn [List.filter is_good_read app]. rewrite Hfail. cbn [negb].
      change (saves backoff) with 0%nat. cbn [Nat.add].
      repeat split; try assumption. now rewrite <- Hu.
    + destruct (read_ok_frame _ Hfail) as [frame ->].
      rewrite iteration_frame_saves, iteration_frame_value.
      cbn [fst snd].
      destruct (budget_spent args (frames st + 1)).
      * exists [Read {| rd_ok := true; rd_frame := Some frame |} clk].
        unfold reads_ok. cbn [List.filter is_good_read]. rewrite Hfail.
        cbn [negb length stats_of rest_of fst snd frames saved app].
        rewrite Nat.add_0_r.
        destruct (save_due args st (clk_now clk)); repeat split; lia.
      * match goal with
        | |- context [main_loop _ _ _ _ _ ?s events] => set (st' := s)
        end.
        destruct (IH st') as [used [Hu [Hf [Hs Hle]]]].
        exists (Read {| rd_ok := true; rd_frame := Some frame |} clk
                     :: used).
        unfold reads_ok in *. cbn [List.filter is_good_read app].
        rewrite Hfail. cbn [negb length].
        rewrite Hf, Hs. subst st'. cbn [frames saved].
        split; [now rewrite <- Hu|].
        destruct (save_due args st (clk_now clk)); repeat split; lia.
  - exists [KeyboardInterrupt]. cbn. repeat split; lia.
Qed.

(** Over a run in which the interrupt, if there is one, comes between two
    iterations, the counters tell the truth: [frames] grows by the number
    of successful reads the loop consumed, [saved] by the number of files
    it wrote, and no more files are written than frames are processed. *)
Theorem main_loop_counters (events : list Event) :
  forall st : Stats,
    let run := main_loop OUT_DIR args cap frontal profile st events in
    exists used : list Event,
      events = used ++ rest_of (value run)
      /\ frames (stats_of (value run))
         = frames st + Z.of_nat (reads_ok used)
      /\ saved (stats_of (value run))
         = saved st + Z.of_nat (saves (trace run))
      /\ (saves (trace run) <= reads_ok used)%nat.
Proof.
  induction events as [|[r clk|] events IH]; intros st; cbv zeta.
  - exists []. cbn. repeat split; lia.
  - rewrite main_loop_cons_value, main_loop_cons_trace, saves_app.
    destruct (read_failed r) eqn:Hfail.
    + rewrite (iteration_dropped _ _ _ _ _ _ _ _ Hfail).
      cbn [value trace fst snd].
      destruct (IH st) as [used [Hu [Hf [Hs Hle]]]].
      exists (Read r clk :: used). unfold reads_ok in *.
      cbn [List.filter is_good_read app]. rewrite Hfail. cbn [negb].
      change (saves backoff) with 0%nat. cbn [Nat.add].
      repeat split; try assumption. now rewrite <- Hu.
    + destruct (read_ok_frame _ Hfail) as [frame ->].
      rewrite iteration_frame_saves, iteration_frame_value.
      cbn [fst snd].
      destruct (budget_spent args (frames st + 1)).
      * exists [Read {| rd_ok := true; rd_frame := Some frame |} clk].
        unfold reads_ok. cbn [List.filter is_good_read]. rewrite Hfail.
        cbn [negb length stats_of rest_of fst snd frames saved app].
        rewrite Nat.add_0_r.
        destruct (save_due args st (clk_now clk)); repeat split; lia.
      * match goal with
        | |- context [main_loop _ _ _ _ _ ?s events] => set (st' := s)
        end.
        destruct (IH st') as [used [Hu [Hf [Hs Hle]]]].
        exists (Read {| rd_ok := true; rd_frame := Some frame |} clk
                     :: used).
        unfold reads_ok in *. cbn [List.filter is_good_read app].
        rewrite Hfail. cbn [negb length].
        rewrite Hf, Hs. subst st'. cbn [frames saved].
        split; [now rewrite <- Hu|].
        destruct (save_due args st (clk_now clk)); repeat split; lia.
  - exists [KeyboardInterrupt]. cbn. repeat split; lia.
Qed.

Lemma main_loop_app (pre post : list Event) :
  forall st : Stats,
    outcome_of (value (main_loop OUT_DIR args cap frontal profile st pre))
    = Running ->
    main_loop OUT_DIR args cap frontal profile st (pre ++ post)
    = (value (main_loop OUT_DIR args cap frontal profile
                        (stats_of (value (main_loop OUT_DIR args cap frontal
                                                    profile st pre)))
                        post),
       trace (main_loop OUT_DIR args cap frontal profile st pre)
       ++ trace (main_loop OUT_DIR args cap frontal profile
                           (stats_of (value (main_loop OUT_DIR args cap
                                                       frontal profile st
                                                       pre)))
                           post)).
Proof.
  induction pre as [|[r clk|] pre IH]; intros st Hrun.
  - cbn. apply M_eta.
  - rewrite main_loop_cons_value in Hrun.
    rewrite (M_eta (main_loop _ _ _ _ _ st ((Read r clk :: pre) ++ post))).
    cbn [app].
    rewrite !main_loop_cons_value, !main_loop_cons_trace.
    destruct (fst (value (iteration _ _ _ _ _ st r clk))).
    + specialize (IH _ Hrun). rewrite IH. cbn [value trace fst snd].
      now rewrite app_assoc.
    + discriminate Hrun.
  - discriminate Hrun.
Qed.


(** An interrupt ends the loop at once: the counters are those the loop
    had reached, the events after the interrupt stay unread, and the only
    effect is the line that says so. *)
Theorem interrupt_stops_loop (pre post : list Event) (st : Stats) :
  outcome_of (value (main_loop OUT_DIR args cap frontal profile st pre))
  = Running ->
  main_loop OUT_DIR args cap frontal profile st
            (pre ++ KeyboardInterrupt :: post)
  = ((Interrupted,
      stats_of (value (main_loop OUT_DIR args cap frontal profile st pre)),
      post),
     trace (main_loop OUT_DIR args cap frontal profile st pre)
     ++ [Log INFO MsgInterrupted]).
Proof.
  intros Hrun. rewrite (main_loop_app pre _ st Hrun). reflexivity.
Qed.

(** With [max_frames] at 0, or below, the loop never stops on its own: as
    long as no interrupt comes it reads every event and is still running,
    having counted every successful read. *)
Theorem unbounded_loop_runs_on (events : list Event) :
  max_frames args <= 0 ->
  existsb is_interrupt events = false ->
  forall st : Stats,
    exists st' : Stats,
      value (main_loop OUT_DIR args cap frontal profile st events)
      = (Running, st', [])
      /\ frames st' = frames st + Z.of_nat (reads_ok events).
Proof.
  intros Hmax. induction events as [|[r clk|] events IH]; intros Hno st.
  - exists st. cbn. split; [reflexivity|lia].
  - cbn [existsb is_interrupt orb] in Hno. specialize (IH Hno).
    rewrite main_loop_cons_value. unfold reads_ok in *.
    cbn [List.filter is_good_read].
    destruct (read_failed r) eqn:Hfail.
    + rewrite (iteration_dropped _ _ _ _ _ _ _ _ Hfail). cbn [value fst snd].
      cbn [negb]. apply IH.
    + destruct (read_ok_frame _ Hfail) as [frame ->].
      rewrite iteration_frame_value. cbn [fst snd]. unfold budget_spent.
      destruct (Z.ltb_spec 0 (max_frames args)); [lia|]. cbn [andb negb].
      match goal with
      | |- context [main_loop _ _ _ _ _ ?s events] => set (st1 := s)
      end.
      destruct (IH st1) as [st' [Hv Hf]]. exists st'. split; [exact Hv|].
      rewrite Hf. subst st1. cbn [frames length]. lia.
  - discriminate Hno.
Qed.

End Loop_properties.

Lemma ge_nan (x : float) : ge x S754_nan = false.
Proof. reflexivity. Qed.

Section Main_properties.
Context {cv : OpenCV}.

(** A save interval that is not a number switches saving off: whatever the
    events, nothing is written and [saved] does not move. *)
Theorem nan_interval_never_saves (OUT_DIR : string) (args : Args)
        (cap : Capture) (frontal : Detector) (profile : option Detector)
        (events : list Event) (st : Stats) :
  is_nan (save_interval args) = true ->
  saves (trace (main_loop OUT_DIR args cap frontal profile st events))
  = 0%nat
  /\ saved (stats_of (value (main_loop OUT_DIR args cap frontal profile st
                                       events)))
     = saved st.
Proof.
  intros Hnan.
  assert (Hsaves : forall events st,
             saves (trace (main_loop OUT_DIR args cap frontal profile st
                                     events)) = 0%nat).
  { clear events st.
    induction events as [|[r clk|] events IH]; intros st;
      [reflexivity| |reflexivity].
    rewrite main_loop_cons_trace, saves_app.
    destruct (read_failed r) eqn:Hfail.
    - rewrite (iteration_dropped _ _ _ _ _ _ _ _ Hfail).
      cbn [value trace fst snd]. apply IH.
    - destruct (read_ok_frame _ Hfail) as [frame ->].
      rewrite iteration_frame_saves. unfold save_due.
      destruct (save_interval args); try discriminate Hnan.
      rewrite ge_nan. destruct (fst (value _)); [apply IH | reflexivity]. }
  split; [apply Hsaves|].
  destruct (main_loop_counts OUT_DIR args cap frontal profile events st)
    as [used [_ [_ [Hs _]]]].
  rewrite Hs, Hsaves. lia.
Qed.

(** When the frontal cascade does not load, [main] gives up with status 3
    before it touches the source: the error line is its only effect. *)
Theorem main_frontal_missing (w : World) (args : Args) (src : Source) :
  health_check_flag args = false ->
  w_frontal_xml w = None ->
  main w args src = (Some 3, [Log ERROR MsgFrontalLoadFailed]).
Proof. intros Hf Hx. unfold main. rewrite Hf, Hx. reflexivity. Qed.

(** When the cascade loads and the source does not open, [main] ends with
    status 4 after a single attempt to open: nothing is read, released,
    detected or saved. *)
Theorem main_source_closed (w : World) (args : Args) (src : Source)
        (frontal : Detector) :
  health_check_flag args = false ->
  w_frontal_xml w = Some frontal ->
  w_isOpened w = false ->
  let run := main w args src in
  value run = Some 4
  /\ count is_open (trace run) = 1%nat
  /\ count is_read (trace run) = 0%nat
  /\ count is_release (trace run) = 0%nat
  /\ count is_detect (trace run) = 0%nat
  /\ saves (trace run) = 0%nat.
Proof.
  intros Hf Hx Ho. cbv zeta. unfold main. rewrite Hf, Hx, Ho.
  destruct (use_profile args), (w_profile_xml w); repeat split.
Qed.

(** In health-check mode [main] is the health check and nothing else: the
    cascades are not loaded, so a missing cascade cannot fail it, no
    detector runs and nothing is saved; the status is 0, 1 or 2. *)
Theorem main_health_mode (w : World) (args : Args) (src : Source) :
  health_check_flag args = true ->
  let run := main w args src in
  let check := health_check (w_isOpened w) (w_health_read w) src in
  run = (Some (value check), trace check)
  /\ 0 <= value check <= 2
  /\ count is_detect (trace run) = 0%nat
  /\ saves (trace run) = 0%nat.
Proof.
  intros Hf. cbv zeta. unfold main. rewrite Hf.
  rewrite health_check_cases.
  destruct (w_isOpened w), (read_failed (w_health_read w)); cbn;
    repeat split; lia.
Qed.

Lemma main_connected (w : World) (args : Args) (src : Source)
      (frontal : Detector) :
  health_check_flag args = false ->
  w_frontal_xml w = Some frontal ->
  w_isOpened w = true ->
  let dets := load_detectors (w_frontal_xml w) (w_profile_xml w)
                             (use_profile args) in
  let loop := main_loop (w_OUT_DIR w) args (VideoCapture src) frontal
                        (snd (value dets)) (init_stats (w_t_start w))
                        (w_events w) in
  main w args src
  = (match outcome_of (value loop) with
     | Running => None
     | ReachedMax | Interrupted => Some 0
     end,
     ((trace dets
       ++ trace (open_capture true src (or_None (width args))
                              (or_None (height args)) (or_None (fps args)))
       ++ [Log INFO MsgConnected])
      ++ trace loop)
     ++ match outcome_of (value loop) with
        | Running => []
        | ReachedMax | Interrupted => [CapRelease]
        end).
Proof.
  intros Hf Hx Ho. cbv zeta. unfold main. rewrite Hf, Hx, Ho.
  rewrite (M_eta (bind _ _)). rewrite value_bind, trace_bind.
  assert (Hd : fst (value (load_detectors (Some frontal) (w_profile_xml w)
                                          (use_profile args)))
               = Some frontal)
    by (destruct (use_profile args), (w_profile_xml w); reflexivity).
  rewrite Hd.
  rewrite value_bind, trace_bind.
  assert (Hv : value (open_capture true src (or_None (width args))
                                   (or_None (height args))
                                   (or_None (fps args)))
               = Some (VideoCapture src)).
  { unfold open_capture, when.
    destruct (truthy _), (truthy _), (truthy _); reflexivity. }
  rewrite Hv. rewrite value_bind, trace_bind.
  cbn [emit value trace fst snd].
  rewrite value_bind, trace_bind. unfold outcome_of.
  destruct (fst (fst (value (main_loop _ _ _ _ _ _ _)))); cbn;
    rewrite <- ?app_assoc; cbn; rewrite ?app_nil_r; reflexivity.
Qed.

(** Once the source is open: while the loop is still running [main] has
    no exit status and nothing is released; as soon as the loop ends, by
    the frame budget or by an interrupt between two iterations, [main]
    returns 0 and releases the capture exactly once, as its last effect.
    The source is opened once. *)
Theorem main_releases_once (w : World) (args : Args) (src : Source)
        (frontal : Detector) :
  health_check_flag args = false ->
  w_frontal_xml w = Some frontal ->
  w_isOpened w = true ->
  let run := main w args src in
  let loop :=
    main_loop (w_OUT_DIR w) args (VideoCapture src) frontal
              (snd (value (load_detectors (w_frontal_xml w)
                                          (w_profile_xml w)
                                          (use_profile args))))
              (init_stats (w_t_start w)) (w_events w) in
  count is_open (trace run) = 1%nat
  /\ match outcome_of (value loop) with
     | Running =>
         value run = None /\ count is_release (trace run) = 0%nat
     | ReachedMax | Interrupted =>
         value run = Some 0
         /\ count is_release (trace run) = 1%nat
         /\ last (trace run) = Some CapRelease
     end.
Proof.
  intros Hf Hx Ho. cbv zeta.
  rewrite (main_connected w args src frontal Hf Hx Ho). cbv zeta.
  cbn [value trace fst snd]. rewrite Hx.
  set (loop := main_loop _ _ _ _ _ _ _).
  assert (Hload : forall kind,
             (forall l m, kind (Log l m) = false) ->
             count kind (trace (load_detectors (Some frontal)
                                               (w_profile_xml w)
                                               (use_profile args)))
             = 0%nat).
  { intros kind Hk. unfold count.
    destruct (use_profile args), (w_profile_xml w); cbn;
      rewrite ?Hk; reflexivity. }
  assert (Hopen : forall kind,
             (forall p v, kind (CapSet p v) = false) ->
             count kind (trace (open_capture true src
                                             (or_None (width args))
                                             (or_None (height args))
                                             (or_None (fps args))))
             = count kind [CapOpen]).
  { intros kind Hk. rewrite open_capture_opened_trace. unfold count.
    destruct (width args =? 0), (height args =? 0), (fps args =? 0); cbn;
      rewrite ?Hk; reflexivity. }
  assert (Hloop_rel : count is_release (trace loop) = 0%nat)
    by (apply main_loop_count_zero; reflexivity).
  assert (Hloop_open : count is_open (trace loop) = 0%nat)
    by (apply main_loop_count_zero; reflexivity).
  rewrite !count_app, Hloop_rel, Hloop_open.
  rewrite !Hload, !Hopen by reflexivity.
  split.
  - destruct (outcome_of (value loop)); reflexivity.
  - destruct (outcome_of (value loop)); cbn;
      repeat split; try reflexivity; apply last_snoc.
Qed.

End Main_properties.

(* ------------------------------------------------------------------ *)
(** ** Further properties: brightening and preprocessing *)

Lemma convertScaleAbs_elem_neutral_table {cv : OpenCV} :
  forallb
    (fun n : nat =>
       (convertScaleAbs_elem true f1_0 0 (Z.of_nat n) =? Z.of_nat n)
       && (convertScaleAbs_elem false f1_0 0 (Z.of_nat n) =? Z.of_nat n))
    (seq 0 256)
  = true.
Proof. vm_compute. reflexivity. Qed.

Lemma convertScaleAbs_elem_neutral {cv : OpenCV} (fused : bool) (v : Z) :
  is_uint8 v -> convertScaleAbs_elem fused f1_0 0 v = v.
Proof.
  unfold is_uint8. intros Hv.
  pose proof convertScaleAbs_elem_neutral_table as Htab.
  rewrite forallb_forall in Htab.
  specialize (Htab (Z.to_nat v)).
  rewrite Z2Nat.id in Htab by lia.
  assert (Hin : In (Z.to_nat v) (seq 0 256)) by (apply in_seq; lia).
  apply Htab, andb_true_iff in Hin as [Ht Hf].
  destruct fused; now apply Z.eqb_eq.
Qed.

(** Gain 1 and offset 0 are neutral, as the help of the two options says:
    a frame of 8-bit values comes back unchanged. *)
Theorem convertScaleAbs_neutral {cv : OpenCV} (frame : Frame) :
  frame_uint8 frame -> convertScaleAbs frame f1_0 0 = frame.
Proof.
  unfold frame_uint8, convertScaleAbs. intros Hu.
  apply list_eq. intros r. rewrite list_lookup_imap.
  destruct (frame !! r) as [row|] eqn:Hr; [|reflexivity].
  cbn [fmap option_fmap option_map]. f_equal.
  pose proof (Forall_lookup_1 _ _ _ _ Hu Hr) as Hrow.
  apply list_eq. intros c. rewrite list_lookup_imap.
  destruct (row !! c) as [[[c0 c1] c2]|] eqn:Hc; [|reflexivity].
  cbn [fmap option_fmap option_map convertScaleAbs_px]. f_equal.
  pose proof (Forall_lookup_1 _ _ _ _ Hrow Hc) as Hpx.
  cbn [channels] in Hpx.
  apply Forall_cons_iff in Hpx as [H0 Hpx].
  apply Forall_cons_iff in Hpx as [H1 Hpx].
  apply Forall_cons_iff in Hpx as [H2 _].
  now rewrite !convertScaleAbs_elem_neutral.
Qed.

Section Image_properties.
Context {cv : OpenCV}.

(** The grayscale image handed to the detectors is always the grayscale of
    the colour frame that is returned with it; with [use_clahe] set the
    flag [equalize] has no effect; with both flags off the colour frame is
    the brightened frame, without a colour round trip. *)
Theorem preprocess_flags (frame : Frame) (alpha : float) (beta : Z)
        (use_clahe equalize equalize' : bool) :
  fst (preprocess_for_faces frame alpha beta use_clahe equalize)
  = cvtColor_BGR2GRAY
      (snd (preprocess_for_faces frame alpha beta use_clahe equalize))
  /\ preprocess_for_faces frame alpha beta true equalize
     = preprocess_for_faces frame alpha beta true equalize'
  /\ snd (preprocess_for_faces frame alpha beta false false)
     = convertScaleAbs frame alpha beta.
Proof.
  unfold preprocess_for_faces. repeat split.
  now destruct equalize, equalize'.
Qed.

(** Reading the first channel back after it was replaced by a plane of
    the same shape gives that plane. *)
Theorem channel0_set_channel0 (img : Frame) (y : Gray) :
  same_shape img y -> channel0 (set_channel0 img y) = y.
Proof.
  unfold same_shape, channel0, set_channel0.
  induction 1 as [|row yrow img y Hrow _ IH]; [reflexivity|].
  cbn [zip_with fmap list_fmap]. f_equal; [|exact IH].
  clear IH. revert yrow Hrow.
  induction row as [|px row IHrow]; intros [|v yrow] Hlen;
    try discriminate Hlen; [reflexivity|].
  cbn [zip_with fmap list_fmap fst]. f_equal. apply IHrow.
  now injection Hlen.
Qed.

(** Writing back the first channel that was read changes nothing. *)
Theorem set_channel0_channel0 (img : Frame) :
  set_channel0 img (channel0 img) = img.
Proof.
  unfold channel0, set_channel0.
  induction img as [|row img IH]; [reflexivity|].
  cbn [zip_with fmap list_fmap]. f_equal; [|exact IH].
  clear IH. induction row as [|[[c0 c1] c2] row IHrow]; [reflexivity|].
  cbn [zip_with fmap list_fmap fst snd]. now f_equal.
Qed.

(** The picture [annotate] leaves does not depend on the order of the
    boxes, nor on how often a box occurs: two lists with the same boxes
    give the same pixels. *)
Theorem annotate_order_irrelevant (img : loc) (faces1 faces2 : list Box)
        (color : Pixel) (thickness : Z) (heap : Store) (r c : nat) :
  (forall b : Box, In b faces1 <-> In b faces2) ->
  pixel_at (default [] (snd (annotate img faces1 color thickness heap)
                        !! img)) r c
  = pixel_at (default [] (snd (annotate img faces2 color thickness heap)
                          !! img)) r c.
Proof.
  intros Hsame. rewrite !annotate_heap, !lookup_alter_eq.
  destruct (heap !! img) as [frame|]; cbn [fmap option_fmap option_map
                                             from_option id];
    [|reflexivity].
  rewrite !pixel_at_draw_boxes.
  assert (Hb : on_border faces1 thickness r c
               = on_border faces2 thickness r c).
  { unfold on_border. apply eq_true_iff_eq.
    rewrite !existsb_exists.
    split; intros [b [Hin Hs]]; exists b; split; try assumption;
      now apply Hsame. }
  now rewrite Hb.
Qed.

End Image_properties.

(* ------------------------------------------------------------------ *)
(** ** Further properties: the files that are written *)

(** The directory is joined the way [pathlib] does it. *)
Example frame_path_runs :
  frame_path "output" "T" = "output/frame_T.jpg"%string
  /\ frame_path "." "T" = "frame_T.jpg"%string
  /\ frame_path "" "T" = "frame_T.jpg"%string
  /\ frame_path "/" "T" = "/frame_T.jpg"%string
  /\ frame_path "/var//data/./out/" "T" = "/var/data/out/frame_T.jpg"%string.
Proof. repeat split. Qed.

Lemma append_inj_l (a x y : string) :
  (a ++ x)%string = (a ++ y)%string -> x = y.
Proof.
  induction a as [|ch a IH]; cbn; intros H; [exact H|].
  injection H as H. now apply IH.
Qed.

Lemma string_length_append (x y : string) :
  String.length (x ++ y) = (String.length x + String.length y)%nat.
Proof.
  induction x as [|ch x IH]; [reflexivity|].
  change (S (String.length (x ++ y))
          = S (String.length x + String.length y)).
  now f_equal.
Qed.

Lemma append_inj_r (x y s : string) :
  (x ++ s)%string = (y ++ s)%string -> x = y.
Proof.
  revert y. induction x as [|ch x IH]; intros [|ch' y] H.
  - reflexivity.
  - apply (f_equal String.length) in H.
    rewrite (string_length_append (String ch' y) s) in H.
    change (String.length (String ch' y)) with (S (String.length y)) in H.
    change (String.length ("" ++ s)) with (String.length s) in H. lia.
  - apply (f_equal String.length) in H.
    rewrite (string_length_append (String ch x) s) in H.
    change (String.length (String ch x)) with (S (String.length x)) in H.
    change (String.length ("" ++ s)) with (String.length s) in H. lia.
  - change (String ch (x ++ s) = String ch' (y ++ s)) in H.
    injection H as -> H. f_equal. now apply IH.
Qed.

Lemma string_append_assoc (a b c : string) :
  ((a ++ b) ++ c)%string = (a ++ (b ++ c))%string.
Proof.
  induction a as [|ch a IH]; [reflexivity|].
  change (String ch ((a ++ b) ++ c) = String ch (a ++ (b ++ c))).
  now f_equal.
Qed.

(** The joined path is a prefix that depends on the directory alone,
    followed by the file name. *)
Lemma concat_snoc (sep : string) (parts : list string) :
  exists pre : string,
    forall name : string,
      String.concat sep (parts ++ [name]) = (pre ++ name)%string.
Proof.
  induction parts as [|part parts [pre IH]].
  - exists ""%string. reflexivity.
  - exists (part ++ sep ++ pre)%string. intros name.
    specialize (IH name).
    change ((part :: parts) ++ [name]) with (part :: (parts ++ [name])).
    destruct (parts ++ [name]) as [|p ps] eqn:Hl.
    + destruct parts; discriminate Hl.
    + change (String.concat sep (part :: p :: ps))
        with (part ++ sep ++ String.concat sep (p :: ps))%string.
      now rewrite IH, !string_append_assoc.
Qed.

Lemma frame_path_inj (OUT_DIR ts1 ts2 : string) :
  frame_path OUT_DIR ts1 = frame_path OUT_DIR ts2 -> ts1 = ts2.
Proof.
  unfold frame_path. intros H. apply append_inj_l in H.
  destruct (concat_snoc "/" (posix_parts OUT_DIR)) as [pre Hpre].
  rewrite !Hpre in H.
  do 2 apply append_inj_l in H. now apply append_inj_r in H.
Qed.

(** Two frames the loop saves go to the same file exactly when their
    timestamps are the same string: frames stamped differently never
    overwrite one another. *)
Theorem saved_paths_distinct {cv : OpenCV} (OUT_DIR : string) (args : Args)
        (cap : Capture) (frontal : Detector) (profile : option Detector)
        (st1 st2 : Stats) (frame1 frame2 : Frame) (clk1 clk2 : Clock)
        (path1 path2 : string) (img1 img2 : Frame) :
  In (Imwrite path1 img1)
     (trace (iteration OUT_DIR args cap frontal profile st1
                       {| rd_ok := true; rd_frame := Some frame1 |} clk1)) ->
  In (Imwrite path2 img2)
     (trace (iteration OUT_DIR args cap frontal profile st2
                       {| rd_ok := true; rd_frame := Some frame2 |} clk2)) ->
  (path1 = path2 <-> clk_utc clk1 = clk_utc clk2).
Proof.
  intros H1 H2.
  apply imwrite_of_iteration in H1 as [-> _].
  apply imwrite_of_iteration in H2 as [-> _].
  split; [apply frame_path_inj | now intros ->].
Qed.

(* ------------------------------------------------------------------ *)
(** ** Runs that meet the hypotheses of the further properties *)

Ltac pick_effect := repeat first [left; reflexivity | right].

Lemma saved_image_is_annotated_witness :
  save_due sample_args (init_stats (of_int 1700000000))
           (clk_now (clock_at 1700000000)) = true.
Proof.
  apply (saved_image_is_annotated (cv := sample_cv) "output" sample_args
           webcam (fixed_detector [(1, 1, 2, 2)]) None
           (init_stats (of_int 1700000000)) (black 4 4)
           (clock_at 1700000000)
           (frame_path "output" (clk_utc (clock_at 1700000000)))
           (draw_boxes (cv := sample_cv) [(1, 1, 2, 2)] color_default
                       thickness_default
                       (snd (enhanced (cv := sample_cv) sample_args
                                      (black 4 4))))).
  vm_compute. pick_effect.
Defined.

Lemma saved_paths_distinct_witness :
  "output/frame_20231114_221320_000000.jpg"%string
  = "output/frame_20231114_221325_000000.jpg"%string
  <-> clk_utc (clock_at 1700000000) = clk_utc clock_later.
Proof.
  apply (saved_paths_distinct (cv := sample_cv) "output" sample_args webcam
           (fixed_detector []) None
           (init_stats (of_int 1700000000)) (init_stats (of_int 1700000000))
           (black 4 4) (black 4 4)
           (clock_at 1700000000) clock_later
           "output/frame_20231114_221320_000000.jpg"
           "output/frame_20231114_221325_000000.jpg"
           (snd (enhanced (cv := sample_cv) sample_args (black 4 4)))
           (snd (enhanced (cv := sample_cv) sample_args (black 4 4))));
    vm_compute; pick_effect.
Defined.

Lemma interrupt_stops_loop_witness :
  value (main_loop (cv := sample_cv) "output" sample_args webcam
                   (fixed_detector []) None (init_stats (of_int 1700000000))
                   ([Read good_read (clock_at 1700000000)]
                    ++ KeyboardInterrupt
                    :: [Read good_read (clock_at 1700000006)]))
  = (Interrupted,
     stats_of (value (main_loop (cv := sample_cv) "output" sample_args
                                webcam (fixed_detector []) None
                                (init_stats (of_int 1700000000))
                                [Read good_read (clock_at 1700000000)])),
     [Read good_read (clock_at 1700000006)]).
Proof.
  rewrite (interrupt_stops_loop (cv := sample_cv) "output" sample_args
             webcam (fixed_detector []) None
             [Read good_read (clock_at 1700000000)]
             [Read good_read (clock_at 1700000006)]
             (init_stats (of_int 1700000000)) eq_refl).
  reflexivity.
Defined.

Lemma unbounded_loop_runs_on_witness :
  exists st' : Stats,
    value (main_loop (cv := sample_cv) "output" sample_args webcam
                     (fixed_detector []) None
                     (init_stats (of_int 1700000000))
                     [Read good_read (clock_at 1700000000);
                      Read failed_read (clock_at 1700000001);
                      Read good_read (clock_at 1700000002)])
    = (Running, st', [])
    /\ frames st' = 2.
Proof.
  apply (unbounded_loop_runs_on (cv := sample_cv) "output" sample_args
           webcam (fixed_detector []) None
           [Read good_read (clock_at 1700000000);
            Read failed_read (clock_at 1700000001);
            Read good_read (clock_at 1700000002)]);
    [cbn; lia | reflexivity].
Defined.

Lemma nan_interval_never_saves_witness :
  let run :=
    main_loop (cv := sample_cv) "output"
              (with_save_interval S754_nan sample_args) webcam
              (fixed_detector []) None (init_stats (of_int 1700000000))
              [Read good_read (clock_at 1700000000);
               Read good_read (clock_at 1700000009)] in
  saves (trace run) = 0%nat /\ saved (stats_of (value run)) = 0.
Proof.
  cbv zeta.
  apply (nan_interval_never_saves (cv := sample_cv) "output"
           (with_save_interval S754_nan sample_args) webcam
           (fixed_detector []) None
           [Read good_read (clock_at 1700000000);
            Read good_read (clock_at 1700000009)]
           (init_stats (of_int 1700000000))).
  reflexivity.
Defined.

Lemma main_frontal_missing_witness :
  main (cv := sample_cv) (sample_world true None []) sample_args (Device 0)
  = (Some 3, [Log ERROR MsgFrontalLoadFailed]).
Proof.
  apply (main_frontal_missing (cv := sample_cv)); reflexivity.
Defined.

Lemma main_source_closed_witness :
  value (main (cv := sample_cv)
              (sample_world false (Some (fixed_detector [])) [])
              sample_args (Device 0)) = Some 4.
Proof.
  apply (main_source_closed (cv := sample_cv)
           (sample_world false (Some (fixed_detector [])) [])
           sample_args (Device 0) (fixed_detector []));
    reflexivity.
Defined.

Lemma main_health_mode_witness :
  main (cv := sample_cv) (sample_world true None [])
       (with_health_check sample_args) (Device 0)
  = (Some 0, [CapOpen; CapRead; CapRelease; Log INFO MsgHealthOK]).
Proof.
  apply (main_health_mode (cv := sample_cv) (sample_world true None [])
           (with_health_check sample_args) (Device 0)).
  reflexivity.
Defined.

(** A frame, then the interrupt: [main] returns 0 and its last effect is
    the release. *)
Lemma main_releases_once_witness :
  let run :=
    main (cv := sample_cv)
         (sample_world true (Some (fixed_detector []))
                       [Read good_read (clock_at 1700000000);
                        KeyboardInterrupt])
         sample_args (Device 0) in
  value run = Some 0
  /\ count is_release (trace run) = 1%nat
  /\ last (trace run) = Some CapRelease.
Proof.
  cbv zeta.
  destruct (main_releases_once (cv := sample_cv)
              (sample_world true (Some (fixed_detector []))
                            [Read good_read (clock_at 1700000000);
                             KeyboardInterrupt])
              sample_args (Device 0) (fixed_detector [])
              eq_refl eq_refl eq_refl) as [_ Hend].
  cbv zeta in Hend.
  match type of Hend with
  | match ?o with _ => _ end =>
      replace o with Interrupted in Hend by (vm_compute; reflexivity)
  end.
  exact Hend.
Defined.

Lemma convertScaleAbs_neutral_witness :
  convertScaleAbs (cv := sample_cv) [[(0, 128, 255); (7, 7, 7)]] f1_0 0
  = [[(0, 128, 255); (7, 7, 7)]].
Proof.
  apply (convertScaleAbs_neutral (cv := sample_cv)).
  repeat constructor; unfold is_uint8; lia.
Defined.

Lemma channel0_set_channel0_witness :
  channel0 (set_channel0 [[(1, 2, 3); (4, 5, 6)]] [[9; 8]]) = [[9; 8]].
Proof.
  apply channel0_set_channel0.
  repeat constructor.
Defined.

Lemma annotate_order_irrelevant_witness :
  let heap : Store := {[ 1%positive := black 6 6 ]} in
  pixel_at (default [] (snd (annotate (cv := sample_cv) 1%positive
                                      [(1, 1, 3, 3); (0, 0, 2, 2)]
                                      color_default thickness_default heap)
                        !! 1%positive)) 1 1
  = pixel_at (default [] (snd (annotate (cv := sample_cv) 1%positive
                                        [(0, 0, 2, 2); (1, 1, 3, 3);
                                         (0, 0, 2, 2)]
                                        color_default thickness_default heap)
                          !! 1%positive)) 1 1.
Proof.
  cbv zeta.
  apply (annotate_order_irrelevant (cv := sample_cv)).
  intros b. cbn [In]. tauto.
Defined.
